(** * StationWindow: the main window of the Vicon station

    A shallow embedding of [StationWindow.cpp].  The first part covers the
    two slots that manage the per-drone sender sessions:

    - [StationWindow::startSenderHandler]        (lines 134-161)
    - [StationWindow::senderWindowCloseHandler]  (lines 170-185)

    Each session is a triple [Sender] / [SenderController] / [SenderWindow],
    owned through [std::unique_ptr] values stored in the three member maps
    [senders], [senderControllers] and [senderWindows], all keyed by the
    drone name.  The second part covers the other slots of the window, the
    widgets of its form and the connections that dispatch to the slots. *)

From stdpp Require Import base gmap strings list fin_maps pretty.

Open Scope string_scope.
Open Scope list_scope.

(** ** Data model *)

(** A [QString] is a [string]; it is used only as a key and as constructor
    argument.  A heap object is identified by the address [new] returned, a
    [nat].  A [std::unique_ptr<T>] is an [option nat]: null ([None]) or the
    owner of the object at that address. *)

(** The static type of the object a [unique_ptr] owns. *)
Inductive kind := KSender | KSenderController | KSenderWindow.

(** Modelled from the spec: the declaration of the three member maps
    ([StationWindow.h]) is missing.  The spec has the registry as a mapping
    from name to sub-object in which a name is present at most once; the .cpp
    file uses each map through [operator[]], [find], [erase(iterator)],
    [size] and [std::end], with move-only [std::unique_ptr] values, that is
    as a [std::map<QString, std::unique_ptr<T>>]: a finite map with unique
    keys whose mapped values may be null. *)
Record StationWindow := mkStationWindow {
  senders : gmap string (option nat);
  senderControllers : gmap string (option nat);
  senderWindows : gmap string (option nat)
}.

Inductive field := Fsenders | FsenderControllers | FsenderWindows.

Definition get_field (f : field) (sw : StationWindow) : gmap string (option nat) :=
  match f with
  | Fsenders => senders sw
  | FsenderControllers => senderControllers sw
  | FsenderWindows => senderWindows sw
  end.

Definition set_field (f : field) (m : gmap string (option nat))
    (sw : StationWindow) : StationWindow :=
  match f with
  | Fsenders => mkStationWindow m (senderControllers sw) (senderWindows sw)
  | FsenderControllers => mkStationWindow (senders sw) m (senderWindows sw)
  | FsenderWindows => mkStationWindow (senders sw) (senderControllers sw) m
  end.

Definition kind_of (f : field) : kind :=
  match f with
  | Fsenders => KSender
  | FsenderControllers => KSenderController
  | FsenderWindows => KSenderWindow
  end.

(** Arguments of the three [new] expressions.  The station handed to
    [Sender] ([controller->getStation()]) is the same for every session and is
    left out.  [SenderController] and [SenderWindow] receive the map slot
    [senders[name]], resp. [senderControllers[name]]; the argument recorded
    here is what that slot holds at the time of the call. *)
Inductive ctor :=
| CSender (name : string)
| CSenderController (sender : option nat)
| CSenderWindow (name : string) (senderController : option nat).

(** Pieces streamed into [qDebug()]. *)
Inductive dbg :=
| DStr (s : string)
| DName (name : string)
| DSize (n : nat).

(** Effects visible outside the registry. *)
Inductive event :=
| MsgBoxExec (text : string)        (* QMessageBox::setText; exec *)
| QDebug (line : list dbg)          (* qDebug() << ... *)
| New (o : nat) (c : ctor)          (* new T(args) *)
| Delete (k : kind) (o : nat)       (* the deleter of a non-null unique_ptr *)
| Show (o : nat)                    (* SenderWindow::show *)
| Connect (sender : option nat).    (* connect(w, closeSelf, this, senderWindowCloseHandler) *)

(** The program state: the member maps, the next fresh heap address, and
    the history of effects, each recorded in order with the member maps as
    they were when the effect took place. *)
Record world := mkWorld {
  this : StationWindow;
  next_oid : nat;
  hist : list (event * StationWindow)
}.

(** ** A state monad with undefined behaviour *)

Inductive outcome (A : Type) :=
| Done (a : A)
| Undefined.
Arguments Done {A} a.
Arguments Undefined {A}.

Definition M (A : Type) : Type := world -> outcome (A * world).

Definition ret {A} (a : A) : M A := fun w => Done (a, w).

Definition bind {A B} (m : M A) (k : A -> M B) : M B :=
  fun w => match m w with
           | Done (a, w') => k a w'
           | Undefined => Undefined
           end.

Definition undefined {A} : M A := fun _ => Undefined.

Declare Scope cpp_scope.
Delimit Scope cpp_scope with cpp.
Notation "x <- m ; k" := (bind m (fun x => k))
  (at level 100, m at next level, right associativity) : cpp_scope.
Notation "m ;; k" := (bind m (fun _ => k))
  (at level 100, right associativity) : cpp_scope.

Definition exec (m : M unit) (w : world) : outcome world :=
  match m w with
  | Done (_, w') => Done w'
  | Undefined => Undefined
  end.

Definition emit (e : event) : M unit :=
  fun w => Done (tt, mkWorld (this w) (next_oid w) (hist w ++ [(e, this w)])).

Definition read (f : field) : M (gmap string (option nat)) :=
  fun w => Done (get_field f (this w), w).

Definition write (f : field) (m : gmap string (option nat)) : M unit :=
  fun w => Done (tt, mkWorld (set_field f m (this w)) (next_oid w) (hist w)).

(** [new T(args)]: a fresh address. *)
Definition new (c : ctor) : M (option nat) :=
  fun w => Done (Some (next_oid w),
                 mkWorld (this w) (S (next_oid w))
                         (hist w ++ [(New (next_oid w) c, this w)])).

(** Destructor of a [unique_ptr]: deletes the object unless null. *)
Definition destroy (k : kind) (p : option nat) : M unit :=
  match p with
  | Some o => emit (Delete k o)
  | None => ret tt
  end.

(** ** std::map operations *)

(** [m[k]]: a missing key is inserted with a null pointer. *)
Definition index (f : field) (k : string) : M (option nat) :=
  (m <- read f;
   match m !! k with
   | Some p => ret p
   | None => (write f (<[k := None]> m);; ret None)
   end)%cpp.

(** [m[k] = std::move(p)]: the slot takes [p], then the object it owned
    before, if any, is deleted. *)
Definition assign (f : field) (k : string) (p : option nat) : M unit :=
  (old <- index f k;
   m <- read f;
   write f (<[k := p]> m);;
   destroy (kind_of f) old)%cpp.

(** Iterators: a position at a key, or [end()]. *)
Inductive iterator :=
| It (k : string)
| End.

(** [m.find(k)] *)
Definition find (f : field) (k : string) : M iterator :=
  (m <- read f;
   match m !! k with
   | Some _ => ret (It k)
   | None => ret End
   end)%cpp.

(** [m.erase(it)]: the element is unlinked and its [unique_ptr] destroyed.
    [it] must be dereferenceable; erasing [end()] is undefined behaviour. *)
Definition erase (f : field) (it : iterator) : M unit :=
  match it with
  | End => undefined
  | It k =>
      (m <- read f;
       match m !! k with
       | Some p => (write f (delete k m);; destroy (kind_of f) p)
       | None => undefined
       end)%cpp
  end.

(** [m.size()] *)
Definition msize (f : field) : M nat :=
  (m <- read f; ret (size m))%cpp.

(** ** Qt calls *)

(** [p->show()] *)
Definition show (p : option nat) : M unit :=
  match p with
  | Some o => emit (Show o)
  | None => undefined
  end.

(** [connect(p.get(), &SenderWindow::closeSelf, this,
    &StationWindow::senderWindowCloseHandler)] *)
Definition connect_closeSelf (p : option nat) : M unit :=
  emit (Connect p).

(** ** The two slots *)

(** [StationWindow::startSenderHandler].  [item] is the result of
    [ui->listWidget->currentItem()]: [None] for a null pointer, otherwise the
    text of the selected item. *)
Definition startSenderHandler (item : option string) : M unit :=
  match item with
  | None => emit (MsgBoxExec "Please select an object first!")
  | Some name =>
      (emit (QDebug [DStr "launch a MavLink sender: "; DName name]);;
       sender <- new (CSender name);
       assign Fsenders name sender;;
       s <- index Fsenders name;
       senderController <- new (CSenderController s);
       assign FsenderControllers name senderController;;
       c <- index FsenderControllers name;
       w <- new (CSenderWindow name c);
       assign FsenderWindows name w;;
       p <- index FsenderWindows name;
       show p;;
       emit (QDebug [DStr "new senderWindow created."]);;
       n <- msize Fsenders;
       emit (QDebug [DStr "Station now has "; DSize n; DStr " sender windows."]);;
       q <- index FsenderWindows name;
       connect_closeSelf q)%cpp
  end.

(** [StationWindow::senderWindowCloseHandler] *)
Definition senderWindowCloseHandler (name : string) : M unit :=
  (it <- find FsenderWindows name;
   match it with
   | It _ =>
       (emit (QDebug [DStr " sender window for: "; DName name; DStr " closed."]);;
        erase FsenderWindows it;;
        n <- msize FsenderWindows;
        emit (QDebug [DStr "Station has "; DSize n; DStr " sender windows."]))
   | End => ret tt
   end;;
   it_c <- find FsenderControllers name;
   erase FsenderControllers it_c;;
   it_s <- find Fsenders name;
   erase Fsenders it_s)%cpp.

(** The registry of a freshly constructed [StationWindow]: the three maps
    are default-constructed, hence empty. *)
Definition init : world :=
  mkWorld (mkStationWindow ∅ ∅ ∅) 0 [].


(** ** Histories of the two slots *)

(** What a slot contributes to the history when the pointer it holds is
    overwritten or erased: the deletion of the object it owned, if any, in
    the registry [sw] the deletion takes place in. *)
Definition deleted (k : kind) (slot : option (option nat)) (sw : StationWindow)
    : list (event * StationWindow) :=
  match slot with
  | Some (Some o) => [(Delete k o, sw)]
  | _ => []
  end.

(** The member maps after each of the three assignments of
    [startSenderHandler], [o] being the first fresh address. *)
Definition reg1 (name : string) (o : nat) (sw : StationWindow) : StationWindow :=
  set_field Fsenders (<[name := Some o]> (senders sw)) sw.
Definition reg2 (name : string) (o : nat) (sw : StationWindow) : StationWindow :=
  set_field FsenderControllers
            (<[name := Some (o + 1)]> (senderControllers sw)) (reg1 name o sw).
Definition reg3 (name : string) (o : nat) (sw : StationWindow) : StationWindow :=
  set_field FsenderWindows
            (<[name := Some (o + 2)]> (senderWindows sw)) (reg2 name o sw).

(** The history one run of [startSenderHandler] on a selected item appends. *)
Definition start_hist (name : string) (o : nat) (sw : StationWindow)
    : list (event * StationWindow) :=
  [(QDebug [DStr "launch a MavLink sender: "; DName name], sw);
   (New o (CSender name), sw)]
  ++ deleted KSender (senders sw !! name) (reg1 name o sw)
  ++ [(New (o + 1) (CSenderController (Some o)), reg1 name o sw)]
  ++ deleted KSenderController (senderControllers sw !! name) (reg2 name o sw)
  ++ [(New (o + 2) (CSenderWindow name (Some (o + 1))), reg2 name o sw)]
  ++ deleted KSenderWindow (senderWindows sw !! name) (reg3 name o sw)
  ++ [(Show (o + 2), reg3 name o sw);
      (QDebug [DStr "new senderWindow created."], reg3 name o sw);
      (QDebug [DStr "Station now has ";
               DSize (size (senders (reg3 name o sw)));
               DStr " sender windows."], reg3 name o sw);
      (Connect (Some (o + 2)), reg3 name o sw)].

(** The world a run of [startSenderHandler] on a selected item leaves. *)
Definition started (name : string) (w : world) : world :=
  mkWorld (reg3 name (next_oid w) (this w)) (next_oid w + 3)
          (hist w ++ start_hist name (next_oid w) (this w)).

(** The member maps after each of the three erasures of
    [senderWindowCloseHandler]. *)
Definition unreg1 (name : string) (sw : StationWindow) : StationWindow :=
  set_field FsenderWindows (delete name (senderWindows sw)) sw.
Definition unreg2 (name : string) (sw : StationWindow) : StationWindow :=
  set_field FsenderControllers (delete name (senderControllers sw))
            (unreg1 name sw).
Definition unreg3 (name : string) (sw : StationWindow) : StationWindow :=
  set_field Fsenders (delete name (senders sw)) (unreg2 name sw).

(** The history of the guarded block (lines 172-178); nothing when the name
    is not a key of [senderWindows]. *)
Definition close_hist_window (name : string) (sw : StationWindow)
    : list (event * StationWindow) :=
  match senderWindows sw !! name with
  | Some p =>
      [(QDebug [DStr " sender window for: "; DName name; DStr " closed."], sw)]
      ++ deleted KSenderWindow (Some p) (unreg1 name sw)
      ++ [(QDebug [DStr "Station has ";
                   DSize (size (senderWindows (unreg1 name sw)));
                   DStr " sender windows."], unreg1 name sw)]
  | None => []
  end.

(** The history one completed run of [senderWindowCloseHandler] appends. *)
Definition close_hist (name : string) (sw : StationWindow)
    : list (event * StationWindow) :=
  close_hist_window name sw
  ++ deleted KSenderController (senderControllers sw !! name) (unreg2 name sw)
  ++ deleted KSender (senders sw !! name) (unreg3 name sw).

(** The world a completed run of [senderWindowCloseHandler] leaves. *)
Definition closed (name : string) (w : world) : world :=
  mkWorld (unreg3 name (this w)) (next_oid w)
          (hist w ++ close_hist name (this w)).

(** The entries of a history whose event satisfies [p]. *)
Definition select (p : event → bool) (h : list (event * StationWindow))
    : list (event * StationWindow) :=
  List.filter (λ x, p x.1) h.

(** The events of a history, without the registries. *)
Definition events (h : list (event * StationWindow)) : list event := h.*1.

Definition is_new (e : event) : bool :=
  match e with New _ _ => true | _ => false end.
Definition is_delete (e : event) : bool :=
  match e with Delete _ _ => true | _ => false end.
Definition is_show (e : event) : bool :=
  match e with Show _ => true | _ => false end.
Definition is_msgbox (e : event) : bool :=
  match e with MsgBoxExec _ => true | _ => false end.

(** ** Sessions and reachable registries *)

(** The slot of [m] at key [n] owns an object. *)
Definition holds (m : gmap string (option nat)) (n : string) : Prop :=
  match m !! n with
  | Some (Some _) => True
  | _ => False
  end.

#[global] Instance holds_dec m n : Decision (holds m n).
Proof. unfold holds. destruct (m !! n) as [[?|]|]; apply _. Defined.

(** All three sub-objects are registered under [n]. *)
Definition session_complete (n : string) (sw : StationWindow) : Prop :=
  holds (senders sw) n ∧ holds (senderControllers sw) n
  ∧ holds (senderWindows sw) n.

#[global] Instance session_complete_dec n sw : Decision (session_complete n sw).
Proof. unfold session_complete. apply _. Defined.

(** [n] is a key of none of the three maps. *)
Definition session_absent (n : string) (sw : StationWindow) : Prop :=
  senders sw !! n = None ∧ senderControllers sw !! n = None
  ∧ senderWindows sw !! n = None.

#[global] Instance session_absent_dec n sw : Decision (session_absent n sw).
Proof. unfold session_absent. apply _. Defined.

(** No window is registered without its controller, and no controller
    without its sender. *)
Definition ordered (sw : StationWindow) : Prop :=
  ∀ n, (is_Some (senderWindows sw !! n) → is_Some (senderControllers sw !! n))
       ∧ (is_Some (senderControllers sw !! n) → is_Some (senders sw !! n)).

(** The three maps have the same keys. *)
Definition same_keys (sw : StationWindow) : Prop :=
  dom (senders sw) = dom (senderControllers sw)
  ∧ dom (senderControllers sw) = dom (senderWindows sw).

(** The operations the event loop dispatches to the registry: a release of
    the start button, with the current selection of the list widget, and a
    [closeSelf] signal carrying a name. *)
Inductive op :=
| StartSender (item : option string)
| SenderWindowClosed (name : string).

Definition run (o : op) : M unit :=
  match o with
  | StartSender item => startSenderHandler item
  | SenderWindowClosed name => senderWindowCloseHandler name
  end.

(** A run of several operations in a row. *)
Fixpoint run_all (os : list op) (w : world) : outcome world :=
  match os with
  | [] => Done w
  | o :: os' =>
      match exec (run o) w with
      | Done w' => run_all os' w'
      | Undefined => Undefined
      end
  end.

(** Registries reachable from the initial one by completed operations. *)
Inductive reachable : world → Prop :=
| reach_init : reachable init
| reach_step w o w' :
    reachable w → exec (run o) w = Done w' → reachable w'.

(** The initial registry after one session was started for "drone1". *)
Definition drone1_world : world := started "drone1" init.

(** The same registry after a second session was started, for "drone2". *)
Definition drone12_world : world := started "drone2" drone1_world.

(** ** Ownership of the heap objects *)

(** The slot of map [f] at key [n] owns the object at address [o]. *)
Definition held (sw : StationWindow) (f : field) (n : string) (o : nat) : Prop :=
  get_field f sw !! n = Some (Some o).

(** The address an entry of the history deletes, resp. constructs. *)
Definition deleted_id (x : event * StationWindow) : option nat :=
  match x.1 with Delete _ o => Some o | _ => None end.
Definition new_id (x : event * StationWindow) : option nat :=
  match x.1 with New o _ => Some o | _ => None end.

(** The addresses deleted, resp. constructed, in the order of the history. *)
Definition deleted_ids (h : list (event * StationWindow)) : list nat :=
  omap deleted_id h.
Definition new_ids (h : list (event * StationWindow)) : list nat :=
  omap new_id h.

(** The address a slot holds, as a list. *)
Definition ids_of (slot : option (option nat)) : list nat :=
  match slot with
  | Some (Some o) => [o]
  | _ => []
  end.

(** The discipline of [std::unique_ptr] on the three maps: what a slot holds
    was constructed and not deleted, no two slots hold the same object,
    nothing is deleted twice, and every object constructed so far is held by
    a slot or was deleted. *)
Record heap_ok (w : world) : Prop := mkHeapOk {
  held_fresh : ∀ f n o, held (this w) f n o → o < next_oid w;
  held_live : ∀ f n o, held (this w) f n o → o ∉ deleted_ids (hist w);
  held_inj : ∀ f n f' n' o,
      held (this w) f n o → held (this w) f' n' o → f = f' ∧ n = n';
  deleted_once : NoDup (deleted_ids (hist w));
  deleted_fresh : ∀ o, o ∈ deleted_ids (hist w) → o < next_oid w;
  no_leak : ∀ o, o < next_oid w →
                 (∃ f n, held (this w) f n o) ∨ o ∈ deleted_ids (hist w);
  new_once : new_ids (hist w) = seq 0 (next_oid w)
}.

(** ** The widgets of the main window *)

(** The values of [Qt::GlobalColor] the file uses. *)
Inductive GlobalColor := Qt_red | Qt_blue | Qt_darkGreen.

(** The two roles of a [QPalette] that [setLabelColor] sets; [None] is the
    colour of a default-constructed palette. *)
Record QPalette := mkPalette {
  Window : option GlobalColor;
  WindowText : option GlobalColor
}.

Record QLabel := mkLabel {
  label_text : string;
  label_palette : QPalette
}.

Record QLineEdit := mkLineEdit {
  line_text : string;
  line_enabled : bool
}.

(** A combo box: the texts of its items, the current index ([-1] when no
    item is current) and the enabled flag. *)
Record QComboBox := mkComboBox {
  combo_items : list string;
  currentIndex : Z;
  combo_enabled : bool
}.

(** The form built by [ui->setupUi]: the widgets the file reads or writes.
    An item of the list widget is the pair of its identity and its text. *)
Record Ui := mkUi {
  hostAddressLine : QLineEdit;
  hostPortLine : QLineEdit;
  viconGPSLine : QLineEdit;
  NorthMapComboBox : QComboBox;
  status : QLabel;
  dtLabel : QLabel;
  listWidget : list (nat * string)
}.

(** What the getters of the [StationController] return at the time of a
    call: [getHostAddress().toString()], [getHostPort()], [getOriginGPS()]
    and [QString::number(getFrameRate())].  The class is not part of the
    sources at hand; its answers are inputs of the slots that ask. *)
Record StationController := mkController {
  getHostAddress_toString : string;
  getHostPort : nat;
  getOriginGPS : string;
  getFrameRate_number : string
}.

(** Calls out of the main window: on the controller, on the close event
    and on the application. *)
Inductive call :=
| CsetHostAddress (address : string)
| CsetHostPort (port : nat)
| CsetOriginGPS (gps : string)
| CsetNorth (axis : string)
| CconnectVicon
| CdisconnectVicon
| Cquestion                      (* QMessageBox::question(this, "ViconStation", ...) *)
| Cignore                        (* event->ignore() *)
| Caccept                        (* event->accept() *)
| Cquit.                         (* qApp->quit(), QApplication::quit *)

(** The buttons [closeEvent] offers in its question. *)
Inductive StandardButton := Cancel | No | Yes.

(** The main window: the sender registry with its history, the form, the
    identity of the next list item, and the calls made so far. *)
Record gui := mkGui {
  reg : world;
  ui : Ui;
  next_item : nat;
  calls : list call
}.

Definition on_reg (f : world → world) (g : gui) : gui :=
  mkGui (f (reg g)) (ui g) (next_item g) (calls g).
Definition on_ui (f : Ui → Ui) (g : gui) : gui :=
  mkGui (reg g) (f (ui g)) (next_item g) (calls g).
Definition do_call (c : call) (g : gui) : gui :=
  mkGui (reg g) (ui g) (next_item g) (calls g ++ [c]).

Definition on_hostAddressLine (f : QLineEdit → QLineEdit) (u : Ui) : Ui :=
  mkUi (f (hostAddressLine u)) (hostPortLine u) (viconGPSLine u)
       (NorthMapComboBox u) (status u) (dtLabel u) (listWidget u).
Definition on_hostPortLine (f : QLineEdit → QLineEdit) (u : Ui) : Ui :=
  mkUi (hostAddressLine u) (f (hostPortLine u)) (viconGPSLine u)
       (NorthMapComboBox u) (status u) (dtLabel u) (listWidget u).
Definition on_viconGPSLine (f : QLineEdit → QLineEdit) (u : Ui) : Ui :=
  mkUi (hostAddressLine u) (hostPortLine u) (f (viconGPSLine u))
       (NorthMapComboBox u) (status u) (dtLabel u) (listWidget u).
Definition on_NorthMapComboBox (f : QComboBox → QComboBox) (u : Ui) : Ui :=
  mkUi (hostAddressLine u) (hostPortLine u) (viconGPSLine u)
       (f (NorthMapComboBox u)) (status u) (dtLabel u) (listWidget u).
Definition on_status (f : QLabel → QLabel) (u : Ui) : Ui :=
  mkUi (hostAddressLine u) (hostPortLine u) (viconGPSLine u)
       (NorthMapComboBox u) (f (status u)) (dtLabel u) (listWidget u).
Definition on_dtLabel (f : QLabel → QLabel) (u : Ui) : Ui :=
  mkUi (hostAddressLine u) (hostPortLine u) (viconGPSLine u)
       (NorthMapComboBox u) (status u) (f (dtLabel u)) (listWidget u).
Definition on_listWidget (f : list (nat * string) → list (nat * string))
    (u : Ui) : Ui :=
  mkUi (hostAddressLine u) (hostPortLine u) (viconGPSLine u)
       (NorthMapComboBox u) (status u) (dtLabel u) (f (listWidget u)).

(** [QLineEdit::setText], [QWidget::setEnabled], [QLabel::setText],
    [QLabel::setPalette], [QComboBox::setCurrentIndex]. *)
Definition line_setText (t : string) (e : QLineEdit) : QLineEdit :=
  mkLineEdit t (line_enabled e).
Definition line_setEnabled (b : bool) (e : QLineEdit) : QLineEdit :=
  mkLineEdit (line_text e) b.
Definition combo_setEnabled (b : bool) (c : QComboBox) : QComboBox :=
  mkComboBox (combo_items c) (currentIndex c) b.
Definition setCurrentIndex (i : Z) (c : QComboBox) : QComboBox :=
  mkComboBox (combo_items c) i (combo_enabled c).
Definition label_setText (t : string) (l : QLabel) : QLabel :=
  mkLabel t (label_palette l).
Definition setPalette (p : QPalette) (l : QLabel) : QLabel :=
  mkLabel (label_text l) p.

(** [QPalette::setColor] on the two roles. *)
Definition setColor_Window (c : GlobalColor) (p : QPalette) : QPalette :=
  mkPalette (Some c) (WindowText p).
Definition setColor_WindowText (c : GlobalColor) (p : QPalette) : QPalette :=
  mkPalette (Window p) (Some c).

(** [QComboBox::findText] with its default flags: the index of the first
    item whose text is [text], [-1] when there is none. *)
Fixpoint findText_from (i : Z) (text : string) (items : list string) : Z :=
  match items with
  | [] => (-1)%Z
  | t :: items' =>
      if decide (t = text) then i else findText_from (i + 1)%Z text items'
  end.
Definition findText (text : string) (c : QComboBox) : Z :=
  findText_from 0%Z text (combo_items c).

(** [QListWidget::addItem(const QString &)]: a new item at the end (the
    list is not sorted unless the form asks for it). *)
Definition addItem (name : string) (g : gui) : gui :=
  mkGui (reg g)
        (on_listWidget (λ l, l ++ [(next_item g, name)]) (ui g))
        (S (next_item g)) (calls g).

(** [QListWidget::findItems(name, Qt::MatchCaseSensitive)]: the items whose
    text is exactly [name], in the order of the list. *)
Definition findItems (name : string) (l : list (nat * string)) : list nat :=
  (filter (λ it, it.2 = name) l).*1.

(** [delete item]: the item takes itself out of its list widget. *)
Definition delete_item (id : nat) (l : list (nat * string))
    : list (nat * string) :=
  filter (λ it, it.1 ≠ id) l.

(** [qDebug() << ...] outside the two sender slots: the same log. *)
Definition qdebug (line : list dbg) (w : world) : world :=
  mkWorld (this w) (next_oid w) (hist w ++ [(QDebug line, this w)]).

(** ** The other slots of the main window *)

(** [StationWindow::setLabelColor], as a function of the label. *)
Definition setLabelColor (color : GlobalColor) (label : QLabel) : QLabel :=
  let palette := mkPalette None None in
  let palette := setColor_Window Qt_blue palette in
  let palette := setColor_WindowText color palette in
  setPalette palette label.

(** [StationWindow::setOnline] *)
Definition setOnline (c : StationController) (g : gui) : gui :=
  let rate := getFrameRate_number c in
  let g := on_ui (on_status
                    (label_setText ("ON LINE (" +:+ rate +:+ "Hz)"))) g in
  on_ui (on_status (setLabelColor Qt_darkGreen)) g.

(** [StationWindow::setOffline] *)
Definition setOffline (g : gui) : gui :=
  let g := on_ui (on_status (label_setText "OFF LINE")) g in
  on_ui (on_status (setLabelColor Qt_red)) g.

(** [StationWindow::setNorth] *)
Definition setNorth (axis : string) (g : gui) : gui :=
  let index := findText axis (NorthMapComboBox (ui g)) in
  if decide (index ≠ (-1)%Z)
  then on_ui (on_NorthMapComboBox (setCurrentIndex index)) g
  else g.

(** [StationWindow::initialize] *)
Definition initialize (c : StationController) (g : gui) : gui :=
  let g := setOffline g in
  let g := on_ui (on_hostAddressLine
                    (line_setText (getHostAddress_toString c))) g in
  let g := on_ui (on_hostPortLine
                    (line_setText (pretty (getHostPort c)))) g in
  let g := on_ui (on_viconGPSLine (line_setText (getOriginGPS c))) g in
  setNorth "-x" g.

(** [StationWindow::addName] *)
Definition addName (name : string) (g : gui) : gui :=
  let g := on_reg (qdebug [DStr "adding drone to UI"; DName name]) g in
  addItem name g.

(** [StationWindow::removeName].  [removeItemWidget] takes away the widget
    set on an item; none is ever set, so only [delete item] acts. *)
Definition removeName (name : string) (g : gui) : gui :=
  let g := on_reg (qdebug [DStr "removing drone from UI"; DName name]) g in
  let items := findItems name (listWidget (ui g)) in
  foldl (λ g item, on_ui (on_listWidget (delete_item item)) g) g items.

(** [StationWindow::updatedt]; [ms] is the value of [int(dt*1000)]. *)
Definition updatedt (ms : Z) (g : gui) : gui :=
  let qdt := "dt = " in
  let qdt := qdt +:+ pretty ms +:+ " ms" in
  on_ui (on_dtLabel (label_setText qdt)) g.

(** [StationWindow::closeEvent]; [resBtn] is the button the question returns. *)
Definition closeEvent (resBtn : StandardButton) (g : gui) : gui :=
  let g := do_call Cquestion g in
  match resBtn with
  | Yes => do_call Cquit (do_call Caccept g)
  | _ => do_call Cignore g
  end.

Section Qt.
(** Two functions of Qt whose result depends on what is not in the sources:
    [QString::toUShort] (the locale) and [QComboBox::currentText] (whether
    the form makes the combo box editable). *)
Variables (toUShort : string → nat) (currentText : QComboBox → string).

(** [StationWindow::launchViconStream] *)
Definition launchViconStream (g : gui) : gui :=
  let g := on_ui (on_hostAddressLine (line_setEnabled false)) g in
  let g := on_ui (on_hostPortLine (line_setEnabled false)) g in
  let g := on_ui (on_viconGPSLine (line_setEnabled false)) g in
  let g := on_ui (on_NorthMapComboBox (combo_setEnabled false)) g in
  let g := do_call (CsetHostAddress (line_text (hostAddressLine (ui g)))) g in
  let g := do_call (CsetHostPort (toUShort (line_text (hostPortLine (ui g))))) g in
  let g := do_call (CsetOriginGPS (line_text (viconGPSLine (ui g)))) g in
  let g := do_call (CsetNorth (currentText (NorthMapComboBox (ui g)))) g in
  do_call CconnectVicon g.

(** [StationWindow::stopViconStream] *)
Definition stopViconStream (g : gui) : gui :=
  let g := do_call CdisconnectVicon g in
  let g := on_ui (on_hostAddressLine (line_setEnabled true)) g in
  let g := on_ui (on_hostPortLine (line_setEnabled true)) g in
  let g := on_ui (on_viconGPSLine (line_setEnabled true)) g in
  on_ui (on_NorthMapComboBox (combo_setEnabled true)) g.

(** What reaches the main window: the signals [setupConnections] and
    [startSenderHandler] connect to its slots, with what the slot reads from
    outside at that moment, and the close event.  [current] is the row of the
    current item of the list widget, if there is one. *)
Inductive input :=
| actionConnect_Vicon_triggered
| actionDisconnect_Vicon_triggered
| actionQuit_triggered
| startMavLinkSenderButton_released (current : option nat)
| droneNameAdded (name : string)
| droneNameRemoved (name : string)
| viconConnected (c : StationController)
| viconDisconnected
| dtUpdated (ms : Z)
| closeSelf (name : string)
| closeEvent_received (resBtn : StandardButton).

(** A slot of the sender registry run inside the main window. *)
Definition in_reg (m : M unit) (g : gui) : outcome gui :=
  match exec m (reg g) with
  | Done w' => Done (mkGui w' (ui g) (next_item g) (calls g))
  | Undefined => Undefined
  end.

(** [ui->listWidget->currentItem()] and its text. *)
Definition currentItem_text (current : option nat) (g : gui) : option string :=
  it ← current ≫= (listWidget (ui g) !!.); Some it.2.

(** The connections of [StationWindow::setupConnections] (lines 72-90) and
    of line 159. *)
Definition dispatch (i : input) (g : gui) : outcome gui :=
  match i with
  | actionConnect_Vicon_triggered => Done (launchViconStream g)
  | actionDisconnect_Vicon_triggered => Done (stopViconStream g)
  | actionQuit_triggered => Done (do_call Cquit g)
  | startMavLinkSenderButton_released current =>
      in_reg (startSenderHandler (currentItem_text current g)) g
  | droneNameAdded name => Done (addName name g)
  | droneNameRemoved name => Done (removeName name g)
  | viconConnected c => Done (setOnline c g)
  | viconDisconnected => Done (setOffline g)
  | dtUpdated ms => Done (updatedt ms g)
  | closeSelf name => in_reg (senderWindowCloseHandler name) g
  | closeEvent_received resBtn => Done (closeEvent resBtn g)
  end.

(** [StationWindow::StationWindow]: [setupUi] builds the form [ui0], the
    maps are empty, [initialize] runs. *)
Definition construct (ui0 : Ui) (c : StationController) : gui :=
  initialize c (mkGui init ui0 (S (max_list (listWidget ui0).*1)) []).

(** The main windows reachable from the constructed one by inputs whose
    slot completes. *)
Inductive gui_reachable (ui0 : Ui) (c : StationController) : gui → Prop :=
| greach_construct : gui_reachable ui0 c (construct ui0 c)
| greach_step g i g' :
    gui_reachable ui0 c g → dispatch i g = Done g' → gui_reachable ui0 c g'.
End Qt.

(** The identities of the items are distinct and older than the next one. *)
Definition items_ok (g : gui) : Prop :=
  NoDup (listWidget (ui g)).*1
  ∧ ∀ id, id ∈ (listWidget (ui g)).*1 → id < next_item g.

(** The status label as [setOffline], resp. [setOnline], leaves it. *)
Definition offline_label : QLabel :=
  mkLabel "OFF LINE" (mkPalette (Some Qt_blue) (Some Qt_red)).
Definition online_label (rate : string) : QLabel :=
  mkLabel ("ON LINE (" +:+ rate +:+ "Hz)")
          (mkPalette (Some Qt_blue) (Some Qt_darkGreen)).

(** [addName] was called with [name]: its debug line is in the history. *)
Definition added (name : string) (h : list (event * StationWindow)) : Prop :=
  ∃ sw, (QDebug [DStr "adding drone to UI"; DName name], sw) ∈ h.

(** [name] is the text of an item of the form as built, or was added. *)
Definition known (ui0 : Ui) (name : string) (g : gui) : Prop :=
  name ∈ (listWidget ui0).*2 ∨ added name (hist (reg g)).

(** Every [connectVicon] in a list of calls comes right after the four
    settings were pushed to the controller. *)
Definition connect_after_settings (l : list call) : Prop :=
  ∀ i : nat, l !! i = Some CconnectVicon →
       (4 ≤ i)%nat
       ∧ ∃ address port gps axis,
           l !! (i - 4) = Some (CsetHostAddress address)
           ∧ l !! (i - 3) = Some (CsetHostPort port)
           ∧ l !! (i - 2) = Some (CsetOriginGPS gps)
           ∧ l !! (i - 1) = Some (CsetNorth axis).

(** A form and controller answers to run the main window on. *)
Definition example_form : Ui :=
  mkUi (mkLineEdit "" true) (mkLineEdit "" true) (mkLineEdit "" true)
       (mkComboBox ["+x"; "-x"; "+y"; "-y"] 0 true)
       (mkLabel "" (mkPalette None None)) (mkLabel "" (mkPalette None None))
       [].
Definition example_controller : StationController :=
  mkController "192.168.1.10" 801 "40.1,-88.2,220" "100".
Definition example_window : gui :=
  construct example_form example_controller.

(** The example window after "drone1" was added to the list, selected, and
    a sender started for it. *)
Definition example_session_window : gui :=
  let g := addName "drone1" example_window in
  mkGui (started "drone1" (reg g)) (ui g) (next_item g) (calls g).

(** ** Specifications of the primitives *)

Lemma get_set_field_eq f m sw : get_field f (set_field f m sw) = m.
Proof. by destruct f. Qed.

Lemma set_set_field f m m' sw :
  set_field f m' (set_field f m sw) = set_field f m' sw.
Proof. by destruct f. Qed.

Lemma assign_spec f k p w :
  assign f k p w =
  let sw' := set_field f (<[k := p]> (get_field f (this w))) (this w) in
  Done (tt, mkWorld sw' (next_oid w)
                    (hist w ++ deleted (kind_of f) (get_field f (this w) !! k) sw')).
Proof.
  unfold assign, index, bind, read, write, ret, destroy, emit; simpl.
  destruct (get_field f (this w) !! k) as [[o|]|] eqn:E; simpl.
  - done.
  - by rewrite app_nil_r.
  - by rewrite get_set_field_eq, insert_insert_eq, set_set_field, app_nil_r.
Qed.

Lemma index_hit f k p w :
  get_field f (this w) !! k = Some p → index f k w = Done (p, w).
Proof. intros E. unfold index, bind, read, ret. by rewrite E. Qed.

Lemma find_spec f k w :
  find f k w =
  Done (match get_field f (this w) !! k with Some _ => It k | None => End end, w).
Proof. unfold find, bind, read, ret. by destruct (_ !! _). Qed.

Lemma erase_hit f k p w :
  get_field f (this w) !! k = Some p →
  erase f (It k) w =
  let sw' := set_field f (delete k (get_field f (this w))) (this w) in
  Done (tt, mkWorld sw' (next_oid w)
                    (hist w ++ deleted (kind_of f) (Some p) sw')).
Proof.
  intros E. unfold erase, bind, read, write, destroy, emit, ret; simpl.
  rewrite E. destruct p; simpl; [done | by rewrite app_nil_r].
Qed.

Arguments erase : simpl never.

(** ** Specifications of the two slots *)

Lemma startSenderHandler_some name w :
  exec (startSenderHandler (Some name)) w = Done (started name w).
Proof.
  destruct w as [sw o h].
  unfold exec, startSenderHandler, bind, emit, new, msize, read, ret,
         connect_closeSelf; simpl.
  rewrite assign_spec; simpl.
  rewrite (index_hit Fsenders name (Some o)); [|apply lookup_insert_eq]; simpl.
  rewrite assign_spec; simpl.
  rewrite (index_hit FsenderControllers name (Some (S o)));
    [|apply lookup_insert_eq]; simpl.
  rewrite assign_spec; simpl.
  rewrite (index_hit FsenderWindows name (Some (S (S o))));
    [|apply lookup_insert_eq]; simpl.
  rewrite (index_hit FsenderWindows name (Some (S (S o))));
    [|apply lookup_insert_eq]; simpl.
  unfold started, start_hist, reg3, reg2, reg1; simpl.
  replace (o + 1) with (S o) by lia.
  replace (o + 2) with (S (S o)) by lia.
  replace (o + 3) with (S (S (S o))) by lia.
  repeat rewrite <- app_assoc; simpl. repeat rewrite <- app_assoc; simpl.
  reflexivity.
Qed.

Lemma startSenderHandler_none w :
  exec (startSenderHandler None) w =
  Done (mkWorld (this w) (next_oid w)
                (hist w ++ [(MsgBoxExec "Please select an object first!", this w)])).
Proof. reflexivity. Qed.

Lemma unreg1_absent name sw :
  senderWindows sw !! name = None → unreg1 name sw = sw.
Proof.
  intros E. unfold unreg1; simpl. rewrite delete_id by done. by destruct sw.
Qed.

(** The guarded block always completes, and control reaches what follows. *)
Lemma close_window_block {B} name (k : M B) w :
  (it <- find FsenderWindows name;
   match it with
   | It _ =>
       (emit (QDebug [DStr " sender window for: "; DName name; DStr " closed."]);;
        erase FsenderWindows it;;
        n <- msize FsenderWindows;
        emit (QDebug [DStr "Station has "; DSize n; DStr " sender windows."]))
   | End => ret tt
   end;;
   k)%cpp w =
  k (mkWorld (unreg1 name (this w)) (next_oid w)
             (hist w ++ close_hist_window name (this w))).
Proof.
  destruct w as [sw o h]. unfold bind at 1. rewrite find_spec; simpl.
  unfold close_hist_window.
  destruct (senderWindows sw !! name) as [p|] eqn:E.
  - unfold bind, emit, msize, read, ret; simpl.
    rewrite (erase_hit FsenderWindows name p) by done; simpl.
    unfold unreg1; simpl. by rewrite <- !app_assoc.
  - unfold bind, ret. by rewrite unreg1_absent, app_nil_r.
Qed.

Lemma senderWindowCloseHandler_done name w pc ps :
  senderControllers (this w) !! name = Some pc →
  senders (this w) !! name = Some ps →
  exec (senderWindowCloseHandler name) w = Done (closed name w).
Proof.
  intros Ec Es. unfold exec, senderWindowCloseHandler.
  rewrite close_window_block.
  destruct w as [sw o h]; simpl in *.
  unfold bind at 1. rewrite find_spec; simpl. rewrite Ec.
  unfold bind at 1. rewrite (erase_hit FsenderControllers name pc) by done.
  simpl. unfold bind at 1. rewrite find_spec; simpl. rewrite Es.
  rewrite (erase_hit Fsenders name ps) by done; simpl.
  unfold closed, close_hist, unreg3, unreg2; simpl. rewrite Ec, Es.
  by rewrite <- !app_assoc.
Qed.

(** The name is no key of [senderControllers]: line 181 erases [end()]. *)
Lemma senderWindowCloseHandler_no_controller name w :
  senderControllers (this w) !! name = None →
  exec (senderWindowCloseHandler name) w = Undefined.
Proof.
  intros Ec. unfold exec, senderWindowCloseHandler.
  rewrite close_window_block.
  destruct w as [sw o h]; simpl in *.
  unfold bind at 1. rewrite find_spec; simpl. by rewrite Ec.
Qed.

(** The name is no key of [senders]: line 184 erases [end()], if line 181
    did not already. *)
Lemma senderWindowCloseHandler_no_sender name w :
  senders (this w) !! name = None →
  exec (senderWindowCloseHandler name) w = Undefined.
Proof.
  intros Es.
  destruct (senderControllers (this w) !! name) as [pc|] eqn:Ec;
    [|by apply senderWindowCloseHandler_no_controller].
  unfold exec, senderWindowCloseHandler.
  rewrite close_window_block.
  destruct w as [sw o h]; simpl in *.
  unfold bind at 1. rewrite find_spec; simpl. rewrite Ec.
  unfold bind at 1. rewrite (erase_hit FsenderControllers name pc) by done.
  simpl. unfold bind at 1. rewrite find_spec; simpl. by rewrite Es.
Qed.

(** A run of [senderWindowCloseHandler] completes exactly when the name is a
    key of both [senderControllers] and [senders]. *)
Lemma senderWindowCloseHandler_inv name w w' :
  exec (senderWindowCloseHandler name) w = Done w' →
  is_Some (senderControllers (this w) !! name)
  ∧ is_Some (senders (this w) !! name)
  ∧ w' = closed name w.
Proof.
  intros H.
  destruct (senderControllers (this w) !! name) as [pc|] eqn:Ec;
    [|by rewrite senderWindowCloseHandler_no_controller in H].
  destruct (senders (this w) !! name) as [ps|] eqn:Es;
    [|by rewrite senderWindowCloseHandler_no_sender in H].
  rewrite (senderWindowCloseHandler_done name w pc ps) in H by done.
  injection H as <-. eauto.
Qed.

(** What one completed operation does to the world. *)
Lemma run_done o w w' :
  exec (run o) w = Done w' →
  match o with
  | StartSender (Some name) => w' = started name w
  | StartSender None =>
      w' = mkWorld (this w) (next_oid w)
                   (hist w ++ [(MsgBoxExec "Please select an object first!", this w)])
  | SenderWindowClosed name =>
      is_Some (senderControllers (this w) !! name)
      ∧ is_Some (senders (this w) !! name)
      ∧ w' = closed name w
  end.
Proof.
  destruct o as [[name|]|name]; unfold run; intros H.
  - rewrite startSenderHandler_some in H. by injection H.
  - rewrite startSenderHandler_none in H. by injection H.
  - by apply senderWindowCloseHandler_inv.
Qed.

(** ** The member maps along a run *)

Lemma holds_insert m n o : holds (<[n := Some o]> m) n.
Proof. unfold holds. by rewrite lookup_insert_eq. Qed.

Lemma holds_insert_ne m n n' p : n ≠ n' → holds (<[n := p]> m) n' ↔ holds m n'.
Proof. intros. unfold holds. by rewrite lookup_insert_ne. Qed.

Lemma holds_delete_ne m n n' : n ≠ n' → holds (delete n m) n' ↔ holds m n'.
Proof. intros. unfold holds. by rewrite lookup_delete_ne. Qed.

Lemma holds_is_Some m n : holds m n → is_Some (m !! n).
Proof. unfold holds. destruct (m !! n) as [[?|]|]; naive_solver. Qed.

Lemma dom_insert_key (m : gmap string (option nat)) n p :
  is_Some (m !! n) → dom (<[n := p]> m) = dom m.
Proof.
  intros Hn%elem_of_dom. rewrite dom_insert_L.
  by apply subseteq_union_1_L, singleton_subseteq_l.
Qed.

Lemma all_or_none_ordered sw :
  (∀ n, session_complete n sw ∨ session_absent n sw) → ordered sw.
Proof.
  intros H n. destruct (H n) as [(Hs & Hc & Hw)|(Hs & Hc & Hw)].
  - split; intros _; by apply holds_is_Some.
  - rewrite Hw, Hc. split; intros [? ?]; done.
Qed.

Lemma elem_of_deleted e sw' k slot sw :
  (e, sw') ∈ deleted k slot sw →
  sw' = sw ∧ ∃ o, slot = Some (Some o) ∧ e = Delete k o.
Proof.
  destruct slot as [[o|]|]; simpl; rewrite ?elem_of_nil; try done.
  rewrite list_elem_of_singleton. intros [= -> ->]. eauto.
Qed.

(** Case analysis on the membership of an entry in a history. *)
Ltac snapshot_cases H :=
  repeat match type of H with
  | _ ∈ _ ++ _ => apply elem_of_app in H as [H|H]
  | _ ∈ _ :: _ => apply elem_of_cons in H as [H|H]
  | _ ∈ [] => by apply elem_of_nil in H
  | _ ∈ deleted _ _ _ => apply elem_of_deleted in H as [-> _]
  | (_, _) = (_, _) => injection H as _ ->
  end.

Lemma select_app p h1 h2 : select p (h1 ++ h2) = select p h1 ++ select p h2.
Proof. apply List.filter_app. Qed.

Lemma select_deleted_delete k slot sw :
  select is_delete (deleted k slot sw) = deleted k slot sw.
Proof. by destruct slot as [[?|]|]. Qed.

Lemma select_deleted_other p k slot sw :
  (∀ o, p (Delete k o) = false) → select p (deleted k slot sw) = [].
Proof. intros H. destruct slot as [[?|]|]; simpl; by rewrite ?H. Qed.

Section Start.
Variables (name : string) (o : nat) (sw : StationWindow).

Lemma reg3_complete : session_complete name (reg3 name o sw).
Proof. repeat split; apply holds_insert. Qed.

Lemma reg3_other n :
  name ≠ n →
  (session_complete n (reg3 name o sw) ↔ session_complete n sw)
  ∧ (session_absent n (reg3 name o sw) ↔ session_absent n sw).
Proof.
  intros Hn. unfold session_complete, session_absent; simpl.
  rewrite !holds_insert_ne, !lookup_insert_ne by done. done.
Qed.

Lemma all_or_none_reg3 :
  (∀ n, session_complete n sw ∨ session_absent n sw) →
  ∀ n, session_complete n (reg3 name o sw) ∨ session_absent n (reg3 name o sw).
Proof.
  intros H n. destruct (decide (name = n)) as [<-|Hn].
  - left. apply reg3_complete.
  - destruct (reg3_other n Hn) as [-> ->]. apply H.
Qed.

Lemma ordered_reg1 : ordered sw → ordered (reg1 name o sw).
Proof.
  intros H n. destruct (H n) as [H1 H2]. simpl. split; [done|].
  intros Hc. destruct (decide (name = n)) as [<-|Hn].
  - rewrite lookup_insert_eq. eauto.
  - rewrite lookup_insert_ne by done. auto.
Qed.

Lemma ordered_reg2 : ordered sw → ordered (reg2 name o sw).
Proof.
  intros H n. destruct (ordered_reg1 H n) as [H1 H2].
  simpl in *. destruct (decide (name = n)) as [<-|Hn].
  - rewrite !lookup_insert_eq. eauto.
  - rewrite !lookup_insert_ne in * by done. auto.
Qed.

Lemma ordered_reg3 : ordered sw → ordered (reg3 name o sw).
Proof.
  intros H n. destruct (ordered_reg2 H n) as [H1 H2].
  simpl in *. destruct (decide (name = n)) as [<-|Hn].
  - rewrite !lookup_insert_eq in *. eauto.
  - rewrite !lookup_insert_ne in * by done. auto.
Qed.

(** Every effect of [startSenderHandler] happens in one of four
    registries: the initial one and the ones after each assignment. *)
Lemma start_hist_snapshots e sw' :
  (e, sw') ∈ start_hist name o sw →
  sw' = sw ∨ sw' = reg1 name o sw ∨ sw' = reg2 name o sw
  ∨ sw' = reg3 name o sw.
Proof. unfold start_hist. intros H. snapshot_cases H; auto. Qed.

Lemma start_hist_new :
  select is_new (start_hist name o sw) =
  [(New o (CSender name), sw);
   (New (o + 1) (CSenderController (Some o)), reg1 name o sw);
   (New (o + 2) (CSenderWindow name (Some (o + 1))), reg2 name o sw)].
Proof.
  unfold start_hist. rewrite !select_app.
  by rewrite !(select_deleted_other is_new).
Qed.

Lemma start_hist_delete :
  select is_delete (start_hist name o sw) =
  deleted KSender (senders sw !! name) (reg1 name o sw)
  ++ deleted KSenderController (senderControllers sw !! name) (reg2 name o sw)
  ++ deleted KSenderWindow (senderWindows sw !! name) (reg3 name o sw).
Proof.
  unfold start_hist. rewrite !select_app, !select_deleted_delete. simpl.
  by rewrite app_nil_r.
Qed.

Lemma start_hist_show :
  select is_show (start_hist name o sw) = [(Show (o + 2), reg3 name o sw)].
Proof.
  unfold start_hist. rewrite !select_app.
  by rewrite !(select_deleted_other is_show).
Qed.

Lemma start_hist_msgbox : select is_msgbox (start_hist name o sw) = [].
Proof.
  unfold start_hist. rewrite !select_app.
  by rewrite !(select_deleted_other is_msgbox).
Qed.
End Start.

Section Close.
Variables (name : string) (sw : StationWindow).

Lemma unreg3_absent : session_absent name (unreg3 name sw).
Proof. repeat split; simpl; apply lookup_delete_eq. Qed.

Lemma unreg3_other n :
  name ≠ n →
  (session_complete n (unreg3 name sw) ↔ session_complete n sw)
  ∧ (session_absent n (unreg3 name sw) ↔ session_absent n sw).
Proof.
  intros Hn. unfold session_complete, session_absent; simpl.
  rewrite !holds_delete_ne, !lookup_delete_ne by done. done.
Qed.

Lemma all_or_none_unreg3 :
  (∀ n, session_complete n sw ∨ session_absent n sw) →
  ∀ n, session_complete n (unreg3 name sw) ∨ session_absent n (unreg3 name sw).
Proof.
  intros H n. destruct (decide (name = n)) as [<-|Hn].
  - right. apply unreg3_absent.
  - destruct (unreg3_other n Hn) as [-> ->]. apply H.
Qed.

Lemma ordered_unreg1 : ordered sw → ordered (unreg1 name sw).
Proof.
  intros H n. destruct (H n) as [H1 H2]. simpl. split; [|done].
  destruct (decide (name = n)) as [<-|Hn].
  - rewrite lookup_delete_eq. by intros [? ?].
  - by rewrite lookup_delete_ne.
Qed.

Lemma ordered_unreg2 : ordered sw → ordered (unreg2 name sw).
Proof.
  intros H n. destruct (ordered_unreg1 H n) as [H1 H2].
  simpl in *. destruct (decide (name = n)) as [<-|Hn].
  - rewrite !lookup_delete_eq. split; by intros [? ?].
  - rewrite !lookup_delete_ne in * by done. auto.
Qed.

Lemma ordered_unreg3 : ordered sw → ordered (unreg3 name sw).
Proof.
  intros H n. destruct (ordered_unreg2 H n) as [H1 H2].
  simpl in *. destruct (decide (name = n)) as [<-|Hn].
  - rewrite !lookup_delete_eq in *. split; by intros [? ?].
  - rewrite !lookup_delete_ne in * by done. auto.
Qed.

Lemma close_hist_snapshots e sw' :
  (e, sw') ∈ close_hist name sw →
  sw' = sw ∨ sw' = unreg1 name sw ∨ sw' = unreg2 name sw
  ∨ sw' = unreg3 name sw.
Proof.
  unfold close_hist, close_hist_window. intros H.
  destruct (senderWindows sw !! name) as [p|]; snapshot_cases H; auto.
Qed.

Lemma close_hist_complete s c v :
  senders sw !! name = Some (Some s) →
  senderControllers sw !! name = Some (Some c) →
  senderWindows sw !! name = Some (Some v) →
  close_hist name sw =
  [(QDebug [DStr " sender window for: "; DName name; DStr " closed."], sw);
   (Delete KSenderWindow v, unreg1 name sw);
   (QDebug [DStr "Station has ";
            DSize (size (senderWindows (unreg1 name sw)));
            DStr " sender windows."], unreg1 name sw);
   (Delete KSenderController c, unreg2 name sw);
   (Delete KSender s, unreg3 name sw)].
Proof.
  intros Es Ec Ew. unfold close_hist, close_hist_window.
  by rewrite Es, Ec, Ew.
Qed.
End Close.

(** A second [closeSelf] for the same name never completes. *)
Lemma second_close_undefined name w w' :
  exec (senderWindowCloseHandler name) w = Done w' →
  exec (senderWindowCloseHandler name) w' = Undefined.
Proof.
  intros (_ & _ & ->)%senderWindowCloseHandler_inv.
  apply senderWindowCloseHandler_no_controller. simpl.
  apply lookup_delete_eq.
Qed.

(** Starting a session and closing it once leaves the name in no map. *)
Lemma start_then_close name w :
  run_all [StartSender (Some name); SenderWindowClosed name] w
  = Done (closed name (started name w))
  ∧ session_absent name (this (closed name (started name w))).
Proof.
  split; [|apply unreg3_absent].
  unfold run_all, run. rewrite startSenderHandler_some.
  rewrite (senderWindowCloseHandler_done name (started name w)
             (Some (next_oid w + 1)) (Some (next_oid w)));
    [done | apply lookup_insert_eq | apply lookup_insert_eq].
Qed.

(** ** Invariants of the reachable registries *)

Lemma reachable_invariant w :
  reachable w →
  (∀ n, session_complete n (this w) ∨ session_absent n (this w))
  ∧ (∀ e sw, (e, sw) ∈ hist w → ordered sw).
Proof.
  induction 1 as [|w o w' _ [IH1 IH2] Hrun].
  - split.
    + intros n. right. repeat split; apply lookup_empty.
    + intros e sw H. by apply elem_of_nil in H.
  - pose proof (all_or_none_ordered _ IH1) as Hord.
    apply run_done in Hrun. destruct o as [[name|]|name].
    + subst w'; simpl. split; [by apply all_or_none_reg3|].
      intros e sw [H|H]%elem_of_app; [by eapply IH2|].
      apply start_hist_snapshots in H as [-> | [-> | [-> | ->]]];
        auto using ordered_reg1, ordered_reg2, ordered_reg3.
    + subst w'; simpl. split; [done|].
      intros e sw [H|H]%elem_of_app; [by eapply IH2|].
      apply list_elem_of_singleton in H. by injection H as _ ->.
    + destruct Hrun as (_ & _ & ->); simpl.
      split; [by apply all_or_none_unreg3|].
      intros e sw [H|H]%elem_of_app; [by eapply IH2|].
      apply close_hist_snapshots in H as [-> | [-> | [-> | ->]]];
        auto using ordered_unreg1, ordered_unreg2, ordered_unreg3.
Qed.

(** One completed operation keeps the key sets of the three maps equal. *)
Lemma run_same_keys o w w' :
  same_keys (this w) → exec (run o) w = Done w' → same_keys (this w').
Proof.
  intros [H1 H2] Hrun. apply run_done in Hrun.
  destruct o as [[name|]|name].
  - subst w'. unfold same_keys; simpl. by rewrite !dom_insert_L, H1, H2.
  - subst w'. by split.
  - destruct Hrun as (_ & _ & ->). unfold same_keys; simpl.
    by rewrite !dom_delete_L, H1, H2.
Qed.

Lemma reachable_same_keys w : reachable w → same_keys (this w).
Proof.
  induction 1 as [|w o w' _ IH Hrun]; [by split|].
  by eapply run_same_keys.
Qed.

(** ** The claims *)




(** C2, as the claim states it, fails: a second [startSenderHandler] for a
    name that is already registered completes, shows no notice, and puts
    three new objects in the place of the existing ones, which it deletes. *)
Lemma duplicate_start_counterexample :
  session_complete "drone1" (this drone1_world)
  ∧ senders (this drone1_world) !! "drone1" = Some (Some 0)
  ∧ ∃ w', exec (startSenderHandler (Some "drone1")) drone1_world = Done w'
          ∧ senders (this w') !! "drone1" = Some (Some 3)
          ∧ this w' ≠ this drone1_world
          ∧ events (select is_delete (hist w'))
            = [Delete KSender 0; Delete KSenderController 1;
               Delete KSenderWindow 2]
          ∧ select is_msgbox (hist w') = [].
Proof.
  split; [vm_compute; tauto|]. split; [vm_compute; reflexivity|].
  eexists. split; [vm_compute; reflexivity|].
  split; [vm_compute; reflexivity|].
  split; [vm_compute; discriminate|].
  split; vm_compute; reflexivity.
Qed.

(** C2, amended.  A second [startSenderHandler] for a registered name is not
    rejected: it completes without a notice, constructs three new objects,
    stores them under the name in place of the existing ones, which are
    deleted, and leaves the key set of each map, hence the number of
    sessions, as it was. *)
Theorem duplicate_start_replaces w n s c v :
  senders (this w) !! n = Some (Some s) →
  senderControllers (this w) !! n = Some (Some c) →
  senderWindows (this w) !! n = Some (Some v) →
  ∃ w' h,
    exec (startSenderHandler (Some n)) w = Done w'
    ∧ hist w' = hist w ++ h
    ∧ select is_msgbox h = []
    ∧ events (select is_new h)
      = [New (next_oid w) (CSender n);
         New (next_oid w + 1) (CSenderController (Some (next_oid w)));
         New (next_oid w + 2) (CSenderWindow n (Some (next_oid w + 1)))]
    ∧ events (select is_delete h)
      = [Delete KSender s; Delete KSenderController c; Delete KSenderWindow v]
    ∧ senders (this w') !! n = Some (Some (next_oid w))
    ∧ senderControllers (this w') !! n = Some (Some (next_oid w + 1))
    ∧ senderWindows (this w') !! n = Some (Some (next_oid w + 2))
    ∧ dom (senders (this w')) = dom (senders (this w))
    ∧ dom (senderControllers (this w')) = dom (senderControllers (this w))
    ∧ dom (senderWindows (this w')) = dom (senderWindows (this w))
    ∧ size (senders (this w')) = size (senders (this w)).
Proof.
  intros Es Ec Ew. exists (started n w), (start_hist n (next_oid w) (this w)).
  split; [apply startSenderHandler_some|].
  split; [reflexivity|].
  split; [apply start_hist_msgbox|].
  split; [by rewrite start_hist_new|].
  split; [by rewrite start_hist_delete, Es, Ec, Ew|].
  simpl. rewrite !lookup_insert_eq. do 3 (split; [done|]).
  assert (dom (<[n:=Some (next_oid w)]> (senders (this w)))
          = dom (senders (this w))) as Hd by (apply dom_insert_key; eauto).
  split; [done|].
  split; [apply dom_insert_key; eauto|].
  split; [apply dom_insert_key; eauto|].
  by rewrite <- !size_dom, Hd.
Qed.

Lemma duplicate_start_replaces_witness :
  senders (this drone1_world) !! "drone1" = Some (Some 0)
  ∧ senderControllers (this drone1_world) !! "drone1" = Some (Some 1)
  ∧ senderWindows (this drone1_world) !! "drone1" = Some (Some 2)
  ∧ ∃ w', exec (startSenderHandler (Some "drone1")) drone1_world = Done w'
          ∧ senders (this w') !! "drone1" = Some (Some 3).
Proof.
  do 3 (split; [reflexivity|]).
  destruct (duplicate_start_replaces drone1_world "drone1" 0 1 2)
    as (w' & h & Hrun & _ & _ & _ & _ & Hs & _);
    [reflexivity | reflexivity | reflexivity |].
  exists w'. split; [exact Hrun | exact Hs].
Defined.

(** C3: the code at the failing input.  On a registry that has no session
    named "drone1", [senderWindowCloseHandler] skips the guarded erasure of
    the window and then erases [senderControllers.end()]: the run is
    undefined, not a completed no-op. *)
Theorem close_unregistered_undefined :
  session_absent "drone1" (this init)
  ∧ exec (senderWindowCloseHandler "drone1") init = Undefined.
Proof. split; [by repeat split | reflexivity]. Qed.

(** C4.  A run of [startSenderHandler] on a selected item constructs, in
    this order, the [Sender], then the [SenderController] on the slot
    [senders[name]], which by then holds that [Sender], then the
    [SenderWindow] on the slot [senderControllers[name]], which by then holds
    that [SenderController]; and nothing else. *)
Theorem construction_order w name :
  ∃ w' h,
    exec (startSenderHandler (Some name)) w = Done w'
    ∧ hist w' = hist w ++ h
    ∧ ∃ sw1 sw2,
        select is_new h
        = [(New (next_oid w) (CSender name), this w);
           (New (next_oid w + 1) (CSenderController (Some (next_oid w))), sw1);
           (New (next_oid w + 2)
                (CSenderWindow name (Some (next_oid w + 1))), sw2)]
        ∧ senders sw1 !! name = Some (Some (next_oid w))
        ∧ senders sw2 !! name = Some (Some (next_oid w))
        ∧ senderControllers sw2 !! name = Some (Some (next_oid w + 1)).
Proof.
  exists (started name w), (start_hist name (next_oid w) (this w)).
  split; [apply startSenderHandler_some|].
  split; [reflexivity|].
  eexists _, _. split; [apply start_hist_new|].
  simpl. by rewrite !lookup_insert_eq.
Qed.

(** C5, as the claim states it, fails: the name is not removed only as the
    last step.  When "drone1" is closed, the [SenderWindow] is deleted in a
    registry where the name is already gone from [senderWindows] while the
    controller and the sender are still registered, and the [Sender] is
    deleted after its key has left [senders]. *)
Lemma name_removed_early_counterexample :
  exec (senderWindowCloseHandler "drone1") drone1_world
  = Done (closed "drone1" drone1_world)
  ∧ ∃ sw sw',
      hist (closed "drone1" drone1_world) !! 9
      = Some (Delete KSenderWindow 2, sw)
      ∧ senderWindows sw !! "drone1" = None
      ∧ senderControllers sw !! "drone1" = Some (Some 1)
      ∧ senders sw !! "drone1" = Some (Some 0)
      ∧ hist (closed "drone1" drone1_world) !! 12
        = Some (Delete KSender 0, sw')
      ∧ senders sw' !! "drone1" = None.
Proof.
  split; [vm_compute; reflexivity|].
  exists (unreg1 "drone1" (this drone1_world)),
         (unreg3 "drone1" (this drone1_world)).
  repeat split; vm_compute; reflexivity.
Qed.

(** C5, amended.  On a registered name, [senderWindowCloseHandler] deletes
    the [SenderWindow], then the [SenderController], then the [Sender], and
    nothing else.  The name leaves the registry map by map, each erasure
    taking it out of one map as it deletes that map's object: the window is
    deleted when the name has left [senderWindows] only, the controller when
    it has left [senderWindows] and [senderControllers], the sender when it
    is a key of none of the three maps, which is the registry the run
    leaves. *)
Theorem destruction_order w n s c v :
  senders (this w) !! n = Some (Some s) →
  senderControllers (this w) !! n = Some (Some c) →
  senderWindows (this w) !! n = Some (Some v) →
  ∃ w' h sw1 sw2,
    exec (senderWindowCloseHandler n) w = Done w'
    ∧ hist w' = hist w ++ h
    ∧ select is_delete h
      = [(Delete KSenderWindow v, sw1);
         (Delete KSenderController c, sw2);
         (Delete KSender s, this w')]
    ∧ last h = Some (Delete KSender s, this w')
    ∧ (senderWindows sw1 !! n = None
       ∧ senderControllers sw1 !! n = Some (Some c)
       ∧ senders sw1 !! n = Some (Some s))
    ∧ (senderWindows sw2 !! n = None
       ∧ senderControllers sw2 !! n = None
       ∧ senders sw2 !! n = Some (Some s))
    ∧ session_absent n (this w').
Proof.
  intros Es Ec Ew. exists (closed n w), (close_hist n (this w)).
  exists (unreg1 n (this w)), (unreg2 n (this w)).
  split; [by eapply senderWindowCloseHandler_done|].
  split; [reflexivity|].
  rewrite (close_hist_complete n (this w) s c v) by done.
  split; [reflexivity|]. split; [reflexivity|].
  split; [|split; [|apply unreg3_absent]]; simpl;
    rewrite ?lookup_delete_eq; done.
Qed.

Lemma destruction_order_witness :
  senders (this drone1_world) !! "drone1" = Some (Some 0)
  ∧ senderControllers (this drone1_world) !! "drone1" = Some (Some 1)
  ∧ senderWindows (this drone1_world) !! "drone1" = Some (Some 2)
  ∧ ∃ w', exec (senderWindowCloseHandler "drone1") drone1_world = Done w'
          ∧ session_absent "drone1" (this w').
Proof.
  do 3 (split; [reflexivity|]).
  destruct (destruction_order drone1_world "drone1" 0 1 2)
    as (w' & h & sw1 & sw2 & Hrun & _ & _ & _ & _ & _ & Habs);
    [reflexivity | reflexivity | reflexivity |].
  exists w'. split; [exact Hrun | exact Habs].
Defined.

(** C6.  With no item selected, [startSenderHandler] shows the notice
    "Please select an object first!" and returns: the three maps are as they
    were, no object is constructed, and the notice is its only effect. *)
Theorem no_selection_no_change w :
  ∃ w',
    exec (startSenderHandler None) w = Done w'
    ∧ this w' = this w
    ∧ next_oid w' = next_oid w
    ∧ hist w' = hist w ++ [(MsgBoxExec "Please select an object first!", this w)].
Proof. eexists. split; [apply startSenderHandler_none | done]. Qed.

(** C7: the code at the failing input.  After a session was started for
    "drone1", one [closeSelf] signal leaves "drone1" in none of the maps; a
    second one for the same name makes the run undefined, so there is no end
    state to compare. *)
Theorem close_twice_undefined :
  (∃ w, run_all [StartSender (Some "drone1");
                 SenderWindowClosed "drone1"] init = Done w
        ∧ session_absent "drone1" (this w))
  ∧ run_all [StartSender (Some "drone1");
             SenderWindowClosed "drone1";
             SenderWindowClosed "drone1"] init = Undefined.
Proof.
  split; [|vm_compute; reflexivity].
  eexists. split; [vm_compute; reflexivity|]. by repeat split.
Qed.

(** C8.  In a run of [startSenderHandler], [show] is called at most once, on
    the new [SenderWindow], and when it is called the three maps hold the new
    [Sender], [SenderController] and [SenderWindow] under the name; a run
    with no item selected shows no window. *)
Theorem show_after_registration item w :
  ∃ w' h,
    exec (startSenderHandler item) w = Done w'
    ∧ hist w' = hist w ++ h
    ∧ match item with
      | None => select is_show h = []
      | Some name =>
          ∃ sw, select is_show h = [(Show (next_oid w + 2), sw)]
                ∧ senders sw !! name = Some (Some (next_oid w))
                ∧ senderControllers sw !! name = Some (Some (next_oid w + 1))
                ∧ senderWindows sw !! name = Some (Some (next_oid w + 2))
      end.
Proof.
  destruct item as [name|].
  - exists (started name w), (start_hist name (next_oid w) (this w)).
    split; [apply startSenderHandler_some|].
    split; [reflexivity|].
    eexists. split; [apply start_hist_show|].
    simpl. by rewrite !lookup_insert_eq.
  - eexists _, _. split; [apply startSenderHandler_none|]. done.
Qed.

(** C9, as the claim states it, fails: with an item selected whose text is
    the empty string, [startSenderHandler] shows no notice and registers a
    session under the empty name. *)
Lemma empty_name_counterexample :
  ∃ w', exec (startSenderHandler (Some "")) init = Done w'
        ∧ select is_msgbox (hist w') = []
        ∧ session_complete "" (this w')
        ∧ dom (senders (this w')) ≠ dom (senders (this init)).
Proof.
  exists (started "" init). split; [apply startSenderHandler_some|].
  split; [apply start_hist_msgbox|]. split; [apply reg3_complete|].
  simpl. rewrite dom_insert_L, dom_empty_L. intros H.
  apply (not_elem_of_empty (C:=gset string) ""). rewrite <- H.
  apply elem_of_union_l, elem_of_singleton. reflexivity.
Qed.

(** C9, amended.  [startSenderHandler] does not look at the text of the
    selected item: when it is the empty string, the run completes without a
    notice and registers the three new objects under the empty name, which
    becomes a key of each map. *)
Theorem empty_name_registered w :
  ∃ w' h,
    exec (startSenderHandler (Some "")) w = Done w'
    ∧ hist w' = hist w ++ h
    ∧ select is_msgbox h = []
    ∧ session_complete "" (this w')
    ∧ dom (senders (this w')) = {[""]} ∪ dom (senders (this w))
    ∧ dom (senderControllers (this w'))
      = {[""]} ∪ dom (senderControllers (this w))
    ∧ dom (senderWindows (this w')) = {[""]} ∪ dom (senderWindows (this w)).
Proof.
  exists (started "" w), (start_hist "" (next_oid w) (this w)).
  split; [apply startSenderHandler_some|].
  split; [reflexivity|]. split; [apply start_hist_msgbox|].
  split; [apply reg3_complete|].
  simpl. by rewrite !dom_insert_L.
Qed.

(** C10.  Between operations the three maps have the same keys.  This holds
    in every reachable registry, and each completed operation keeps it:
    [startSenderHandler] on a selected item leaves its name a key of all
    three maps, [startSenderHandler] without a selection leaves the maps as
    they were, and a completed [senderWindowCloseHandler] leaves its name a
    key of none. *)
Theorem maps_share_keys w :
  reachable w →
  same_keys (this w)
  ∧ ∀ o w',
      exec (run o) w = Done w' →
      same_keys (this w')
      ∧ match o with
        | StartSender (Some name) =>
            name ∈ dom (senders (this w'))
            ∧ name ∈ dom (senderControllers (this w'))
            ∧ name ∈ dom (senderWindows (this w'))
        | StartSender None => this w' = this w
        | SenderWindowClosed name =>
            (name ∉ dom (senders (this w')))
            ∧ (name ∉ dom (senderControllers (this w')))
            ∧ (name ∉ dom (senderWindows (this w')))
        end.
Proof.
  intros Hw. pose proof (reachable_same_keys w Hw) as Hk.
  split; [exact Hk|]. intros o w' Hrun.
  split; [by eapply run_same_keys|].
  apply run_done in Hrun. destruct o as [[name|]|name].
  - subst w'; simpl. rewrite !elem_of_dom, !lookup_insert_eq. eauto.
  - by subst w'.
  - destruct Hrun as (_ & _ & ->); simpl.
    rewrite !not_elem_of_dom, !lookup_delete_eq. done.
Qed.

Lemma maps_share_keys_witness :
  reachable drone1_world
  ∧ same_keys (this drone1_world)
  ∧ ∃ w', exec (run (SenderWindowClosed "drone1")) drone1_world = Done w'
          ∧ same_keys (this w')
          ∧ "drone1" ∉ dom (senders (this w')).
Proof.
  assert (reachable drone1_world) as H.
  { apply (reach_step init (StartSender (Some "drone1")));
      [apply reach_init | vm_compute; reflexivity]. }
  destruct (maps_share_keys drone1_world H) as [Hk Hstep].
  split; [exact H|]. split; [exact Hk|].
  exists (closed "drone1" drone1_world).
  assert (exec (run (SenderWindowClosed "drone1")) drone1_world
          = Done (closed "drone1" drone1_world)) as Hrun
    by (vm_compute; reflexivity).
  destruct (Hstep _ _ Hrun) as [Hk' [Hs _]].
  split; [exact Hrun|]. split; [exact Hk' | exact Hs].
Defined.
(** ** Ownership along a run *)

Lemma ids_of_deleted k slot sw : deleted_ids (deleted k slot sw) = ids_of slot.
Proof. by destruct slot as [[?|]|]. Qed.

Lemma new_ids_deleted k slot sw : new_ids (deleted k slot sw) = [].
Proof. by destruct slot as [[?|]|]. Qed.

Lemma elem_of_ids_of slot o : o ∈ ids_of slot ↔ slot = Some (Some o).
Proof.
  destruct slot as [[x|]|]; simpl;
    rewrite ?list_elem_of_singleton, ?elem_of_nil; naive_solver.
Qed.

Lemma NoDup_ids_of slot : NoDup (ids_of slot).
Proof. destruct slot as [[x|]|]; simpl; [apply NoDup_singleton | |]; constructor. Qed.

(** The addresses a run of [startSenderHandler] deletes are those the three
    slots of the name held, sender first. *)
Lemma start_hist_deleted_ids name o sw :
  deleted_ids (start_hist name o sw) =
  ids_of (senders sw !! name) ++ ids_of (senderControllers sw !! name)
  ++ ids_of (senderWindows sw !! name).
Proof.
  unfold start_hist, deleted_ids. rewrite !omap_app.
  fold (deleted_ids (deleted KSender (senders sw !! name) (reg1 name o sw))).
  fold (deleted_ids (deleted KSenderController (senderControllers sw !! name)
                             (reg2 name o sw))).
  fold (deleted_ids (deleted KSenderWindow (senderWindows sw !! name)
                             (reg3 name o sw))).
  rewrite !ids_of_deleted. simpl. by rewrite app_nil_r.
Qed.

Lemma start_hist_new_ids name o sw :
  new_ids (start_hist name o sw) = [o; o + 1; o + 2].
Proof.
  unfold start_hist, new_ids. rewrite !omap_app.
  fold (new_ids (deleted KSender (senders sw !! name) (reg1 name o sw))).
  fold (new_ids (deleted KSenderController (senderControllers sw !! name)
                         (reg2 name o sw))).
  fold (new_ids (deleted KSenderWindow (senderWindows sw !! name)
                         (reg3 name o sw))).
  by rewrite !new_ids_deleted.
Qed.

(** The addresses a completed run of [senderWindowCloseHandler] deletes are
    those the three slots of the name held, window first. *)
Lemma close_hist_deleted_ids name sw :
  deleted_ids (close_hist name sw) =
  ids_of (senderWindows sw !! name) ++ ids_of (senderControllers sw !! name)
  ++ ids_of (senders sw !! name).
Proof.
  unfold close_hist, close_hist_window, deleted_ids. rewrite !omap_app.
  fold (deleted_ids (deleted KSenderController (senderControllers sw !! name)
                             (unreg2 name sw))).
  fold (deleted_ids (deleted KSender (senders sw !! name) (unreg3 name sw))).
  rewrite !ids_of_deleted. f_equal.
  destruct (senderWindows sw !! name) as [[x|]|]; reflexivity.
Qed.

Lemma close_hist_new_ids name sw : new_ids (close_hist name sw) = [].
Proof.
  unfold close_hist, close_hist_window, new_ids. rewrite !omap_app.
  fold (new_ids (deleted KSenderController (senderControllers sw !! name)
                         (unreg2 name sw))).
  fold (new_ids (deleted KSender (senders sw !! name) (unreg3 name sw))).
  rewrite !new_ids_deleted.
  destruct (senderWindows sw !! name) as [[x|]|]; reflexivity.
Qed.

(** An address among those held under [name] is held by a slot of [name]. *)
Lemma elem_of_slot_ids sw name o :
  o ∈ ids_of (senders sw !! name) ++ ids_of (senderControllers sw !! name)
      ++ ids_of (senderWindows sw !! name)
  ↔ ∃ f, held sw f name o.
Proof.
  rewrite !elem_of_app, !elem_of_ids_of. split.
  - intros [H|[H|H]];
      [exists Fsenders | exists FsenderControllers | exists FsenderWindows];
      exact H.
  - intros [[] H]; auto.
Qed.

Lemma held_reg3 name o sw f n x :
  held (reg3 name o sw) f n x ↔
  (n = name ∧ x = match f with
                  | Fsenders => o
                  | FsenderControllers => o + 1
                  | FsenderWindows => o + 2
                  end)
  ∨ (n ≠ name ∧ held sw f n x).
Proof.
  unfold held. destruct (decide (name = n)) as [<-|Hn].
  - destruct f; simpl; rewrite lookup_insert_eq; naive_solver.
  - destruct f; simpl; rewrite lookup_insert_ne by done; naive_solver.
Qed.

Lemma held_unreg3 name sw f n x :
  held (unreg3 name sw) f n x ↔ n ≠ name ∧ held sw f n x.
Proof.
  unfold held. destruct (decide (name = n)) as [<-|Hn].
  - destruct f; simpl; rewrite lookup_delete_eq; naive_solver.
  - destruct f; simpl; rewrite lookup_delete_ne by done; naive_solver.
Qed.

Lemma heap_ok_init : heap_ok init.
Proof.
  split; simpl.
  - intros [] n o H; unfold held in H; simpl in H; by rewrite lookup_empty in H.
  - intros f n o _. apply not_elem_of_nil.
  - intros [] n f' n' o H; unfold held in H; simpl in H;
      by rewrite lookup_empty in H.
  - constructor.
  - intros o H. by apply elem_of_nil in H.
  - intros o H. lia.
  - reflexivity.
Qed.

(** An effect that neither constructs nor deletes keeps the discipline. *)
Lemma heap_ok_log e w :
  is_new e = false → is_delete e = false →
  heap_ok w →
  heap_ok (mkWorld (this w) (next_oid w) (hist w ++ [(e, this w)])).
Proof.
  intros Hn Hd [H1 H2 H3 H4 H5 H6 H7].
  assert (deleted_ids (hist w ++ [(e, this w)]) = deleted_ids (hist w)) as Ed.
  { unfold deleted_ids. rewrite omap_app. destruct e; try done.
    all: by rewrite app_nil_r. }
  assert (new_ids (hist w ++ [(e, this w)]) = new_ids (hist w)) as En.
  { unfold new_ids. rewrite omap_app. destruct e; try done.
    all: by rewrite app_nil_r. }
  split; simpl; rewrite ?Ed, ?En; done.
Qed.

Lemma heap_ok_started name w : heap_ok w → heap_ok (started name w).
Proof.
  intros [H1 H2 H3 H4 H5 H6 H7].
  set (o := next_oid w) in *. set (sw := this w) in *.
  set (olds := ids_of (senders sw !! name)
               ++ ids_of (senderControllers sw !! name)
               ++ ids_of (senderWindows sw !! name)).
  assert (deleted_ids (hist w ++ start_hist name o sw)
          = deleted_ids (hist w) ++ olds) as Ed.
  { unfold deleted_ids. rewrite omap_app.
    apply (f_equal (app _)). apply start_hist_deleted_ids. }
  assert (∀ x, x ∈ olds → x < o ∧ x ∉ deleted_ids (hist w)) as Holds.
  { intros x [f Hx]%elem_of_slot_ids. eauto. }
  split; cbn [this next_oid hist started]; fold o sw.
  - intros f n x [[-> ->]|[_ Hx]]%held_reg3.
    + destruct f; lia.
    + apply H1 in Hx. fold o in Hx. lia.
  - intros f n x Hx. rewrite Ed, elem_of_app.
    apply held_reg3 in Hx as [[-> ->]|[Hn Hx]].
    + intros [Hd|Hd].
      * apply H5 in Hd. fold o in Hd. destruct f; lia.
      * apply Holds in Hd as [Hd _]. destruct f; lia.
    + intros [Hd|Hd].
      * by apply (H2 f n x).
      * apply elem_of_slot_ids in Hd as [f' Hd].
        destruct (H3 _ _ _ _ _ Hx Hd) as [_ ?]. done.
  - intros f n f' n' x Hx Hx'.
    apply held_reg3 in Hx as [[-> ->]|[Hn Hx]];
      apply held_reg3 in Hx' as [[-> Hx']|[Hn' Hx']].
    + split; [|done]. destruct f, f'; (done || lia).
    + apply H1 in Hx'. fold o in Hx'. destruct f; lia.
    + apply H1 in Hx. fold o in Hx. subst x. destruct f'; lia.
    + by apply (H3 f n f' n' x).
  - rewrite Ed. apply NoDup_app. split; [done|]. split.
    + intros x Hx Hx'. by apply Holds in Hx' as [_ ?].
    + unfold olds. apply NoDup_app. split; [apply NoDup_ids_of|]. split.
      * intros x Hs%elem_of_ids_of [Hc|Hc]%elem_of_app;
          apply elem_of_ids_of in Hc.
        -- by destruct (H3 Fsenders name FsenderControllers name x Hs Hc).
        -- by destruct (H3 Fsenders name FsenderWindows name x Hs Hc).
      * apply NoDup_app. split; [apply NoDup_ids_of|].
        split; [|apply NoDup_ids_of].
        intros x Hc%elem_of_ids_of Hw%elem_of_ids_of.
        by destruct (H3 FsenderControllers name FsenderWindows name x Hc Hw).
  - intros x. rewrite Ed, elem_of_app. intros [Hx|Hx].
    + apply H5 in Hx. fold o in Hx. lia.
    + apply Holds in Hx as [Hx _]. lia.
  - intros x Hx. rewrite Ed, elem_of_app.
    destruct (decide (x < o)) as [Hlt|Hge].
    + destruct (H6 x Hlt) as [(f & n & Hh)|Hd]; [|auto].
      destruct (decide (n = name)) as [->|Hn].
      * right. right. apply elem_of_slot_ids. eauto.
      * left. exists f, n. apply held_reg3. auto.
    + left. destruct (decide (x = o)) as [->|?];
        [|destruct (decide (x = o + 1)) as [->|?]].
      * exists Fsenders, name. apply held_reg3. auto.
      * exists FsenderControllers, name. apply held_reg3. auto.
      * exists FsenderWindows, name. apply held_reg3. left.
        split; [done|lia].
  - unfold new_ids. rewrite omap_app.
    fold (new_ids (hist w)) (new_ids (start_hist name o sw)).
    rewrite H7, start_hist_new_ids. fold o.
    replace (o + 3) with (o + 1 + 1 + 1) by lia.
    rewrite !seq_app; simpl. rewrite <- !app_assoc. simpl.
    by replace (o + 1 + 1) with (o + 2) by lia.
Qed.

Lemma heap_ok_closed name w : heap_ok w → heap_ok (closed name w).
Proof.
  intros [H1 H2 H3 H4 H5 H6 H7].
  set (o := next_oid w) in *. set (sw := this w) in *.
  set (olds := ids_of (senderWindows sw !! name)
               ++ ids_of (senderControllers sw !! name)
               ++ ids_of (senders sw !! name)).
  assert (deleted_ids (hist w ++ close_hist name sw)
          = deleted_ids (hist w) ++ olds) as Ed.
  { unfold deleted_ids. rewrite omap_app.
    apply (f_equal (app _)). apply close_hist_deleted_ids. }
  assert (∀ x, x ∈ olds ↔ ∃ f, held sw f name x) as Eolds.
  { intros x. rewrite <- elem_of_slot_ids. unfold olds.
    rewrite !elem_of_app. tauto. }
  split; cbn [this next_oid hist closed]; fold o sw.
  - intros f n x [_ Hx]%held_unreg3. by apply (H1 f n x).
  - intros f n x [Hn Hx]%held_unreg3. rewrite Ed, elem_of_app.
    intros [Hd|Hd]; [by apply (H2 f n x)|].
    apply Eolds in Hd as [f' Hd].
    by destruct (H3 _ _ _ _ _ Hx Hd) as [_ ?].
  - intros f n f' n' x [_ Hx]%held_unreg3 [_ Hx']%held_unreg3.
    by apply (H3 f n f' n' x).
  - rewrite Ed. apply NoDup_app. split; [done|]. split.
    + intros x Hx [f Hx']%Eolds. by apply (H2 f name x).
    + unfold olds. apply NoDup_app. split; [apply NoDup_ids_of|]. split.
      * intros x Hs%elem_of_ids_of [Hc|Hc]%elem_of_app;
          apply elem_of_ids_of in Hc.
        -- by destruct (H3 FsenderWindows name FsenderControllers name x Hs Hc).
        -- by destruct (H3 FsenderWindows name Fsenders name x Hs Hc).
      * apply NoDup_app. split; [apply NoDup_ids_of|].
        split; [|apply NoDup_ids_of].
        intros x Hc%elem_of_ids_of Hw%elem_of_ids_of.
        by destruct (H3 FsenderControllers name Fsenders name x Hc Hw).
  - intros x. rewrite Ed, elem_of_app. intros [Hx|[f Hx]%Eolds].
    + by apply H5.
    + by apply (H1 f name x).
  - intros x Hx. rewrite Ed, elem_of_app.
    destruct (H6 x Hx) as [(f & n & Hh)|Hd]; [|auto].
    destruct (decide (n = name)) as [->|Hn].
    + right. right. apply Eolds. eauto.
    + left. exists f, n. apply held_unreg3. auto.
  - unfold new_ids. rewrite omap_app.
    fold (new_ids (hist w)) (new_ids (close_hist name sw)).
    by rewrite H7, close_hist_new_ids, app_nil_r.
Qed.

Lemma reachable_heap_ok w : reachable w → heap_ok w.
Proof.
  induction 1 as [|w o w' _ IH Hrun]; [apply heap_ok_init|].
  apply run_done in Hrun. destruct o as [[name|]|name].
  - subst w'. by apply heap_ok_started.
  - subst w'. by apply heap_ok_log.
  - destruct Hrun as (_ & _ & ->). by apply heap_ok_closed.
Qed.

(** ** The list widget *)

Lemma foldl_delete_item_gui ids g :
  foldl (λ g item, on_ui (on_listWidget (delete_item item)) g) g ids
  = on_ui (on_listWidget (λ l, foldl (λ l id, delete_item id l) l ids)) g.
Proof.
  revert g. induction ids as [|id ids IH]; intros g; simpl.
  - by destruct g as [? [] ? ?].
  - rewrite IH. by destruct g as [? [] ? ?].
Qed.

(** Deleting items one after the other keeps the items deleted by none. *)
Lemma foldl_delete_item ids (l : list (nat * string)) :
  foldl (λ l id, delete_item id l) l ids = filter (λ it, it.1 ∉ ids) l.
Proof.
  revert l. induction ids as [|id ids IH]; intros l; simpl.
  - induction l as [|it l IHl]; [done|].
    rewrite filter_cons_True by apply not_elem_of_nil. by rewrite <- IHl.
  - rewrite IH. unfold delete_item. rewrite list_filter_filter.
    apply list_filter_iff. intros it. rewrite not_elem_of_cons. tauto.
Qed.

(** With distinct identities, an item is found exactly when its text is the
    name. *)
Lemma elem_of_findItems name (l : list (nat * string)) it :
  NoDup l.*1 → it ∈ l → it.1 ∈ findItems name l ↔ it.2 = name.
Proof.
  intros Hnd Hit. unfold findItems. rewrite list_elem_of_fmap. split.
  - intros (it' & Hid & [Hname Hit']%list_elem_of_filter).
    assert (it = it') as ->; [|done].
    apply list_elem_of_lookup in Hit as [i Hi].
    apply list_elem_of_lookup in Hit' as [j Hj].
    assert (i = j) as ->.
    { apply (NoDup_lookup l.*1 i j it.1); [done| |].
      - by rewrite list_lookup_fmap, Hi.
      - by rewrite list_lookup_fmap, Hj, Hid. }
    congruence.
  - intros Hname. exists it. split; [done|].
    apply list_elem_of_filter. done.
Qed.

Lemma filter_ext_elem_of {A} (P Q : A → Prop)
    `{∀ x, Decision (P x)} `{∀ x, Decision (Q x)} (l : list A) :
  (∀ x, x ∈ l → P x ↔ Q x) → filter P l = filter Q l.
Proof.
  induction l as [|x l IH]; intros HPQ; [done|].
  rewrite !filter_cons.
  rewrite IH by (intros y Hy; apply HPQ; by right).
  destruct (decide (P x)) as [HP|HP], (decide (Q x)) as [HQ|HQ]; try done.
  - destruct HQ. apply HPQ; [by left | done].
  - destruct HP. apply HPQ; [by left | done].
Qed.

Lemma removeName_listWidget name g :
  NoDup (listWidget (ui g)).*1 →
  listWidget (ui (removeName name g))
  = filter (λ it, it.2 ≠ name) (listWidget (ui g)).
Proof.
  intros Hnd. unfold removeName. rewrite foldl_delete_item_gui. simpl.
  rewrite foldl_delete_item. apply filter_ext_elem_of.
  intros it Hit. by rewrite (elem_of_findItems name _ it Hnd Hit).
Qed.

Lemma removeName_frame name g :
  reg (removeName name g)
  = qdebug [DStr "removing drone from UI"; DName name] (reg g)
  ∧ next_item (removeName name g) = next_item g
  ∧ calls (removeName name g) = calls g
  ∧ on_listWidget (λ _, []) (ui (removeName name g))
    = on_listWidget (λ _, []) (ui g).
Proof. unfold removeName. rewrite foldl_delete_item_gui. done. Qed.


Lemma items_ok_addName name g : items_ok g → items_ok (addName name g).
Proof.
  intros [Hnd Hlt]. unfold items_ok; simpl. rewrite fmap_app; simpl. split.
  - apply NoDup_app. split; [done|]. split; [|apply NoDup_singleton].
    intros id Hid ->%list_elem_of_singleton. apply Hlt in Hid. lia.
  - intros id [Hid| ->%list_elem_of_singleton]%elem_of_app; [|lia].
    apply Hlt in Hid. lia.
Qed.

Lemma items_ok_removeName name g : items_ok g → items_ok (removeName name g).
Proof.
  intros [Hnd Hlt]. unfold items_ok.
  rewrite removeName_listWidget by done.
  destruct (removeName_frame name g) as (_ & -> & _). split.
  - apply NoDup_fmap_fst.
    + intros id t1 t2 [_ H1]%list_elem_of_filter [_ H2]%list_elem_of_filter.
      apply list_elem_of_lookup in H1 as [i Hi].
      apply list_elem_of_lookup in H2 as [j Hj].
      assert (i = j) as ->; [|congruence].
      apply (NoDup_lookup (listWidget (ui g)).*1 i j id); [done| |].
      * by rewrite list_lookup_fmap, Hi.
      * by rewrite list_lookup_fmap, Hj.
    + apply NoDup_filter. by apply NoDup_fmap_1 in Hnd.
  - intros id (it & -> & [_ Hit]%list_elem_of_filter)%list_elem_of_fmap.
    apply Hlt, list_elem_of_fmap. eauto.
Qed.

(** ** The combo box *)

Lemma findText_from_None i text items :
  text ∉ items → findText_from i text items = (-1)%Z.
Proof.
  revert i. induction items as [|t items IH]; intros i Hn; [done|].
  apply not_elem_of_cons in Hn as [Hne Hn]. simpl.
  rewrite decide_False by done. by apply IH.
Qed.

Lemma findText_from_Some i text items :
  text ∈ items →
  ∃ k : nat,
    findText_from i text items = (i + Z.of_nat k)%Z
    ∧ items !! k = Some text
    ∧ ∀ j, j < k → items !! j ≠ Some text.
Proof.
  revert i. induction items as [|t items IH]; intros i Hin.
  - by apply elem_of_nil in Hin.
  - simpl. destruct (decide (t = text)) as [->|Hne].
    + exists 0. split; [lia|]. split; [done|]. intros j Hj. lia.
    + apply elem_of_cons in Hin as [->|Hin]; [done|].
      destruct (IH (i + 1)%Z Hin) as (k & Hk & Hat & Hfirst).
      exists (S k). split; [lia|]. split; [done|].
      intros [|j] Hj; simpl; [congruence|]. apply Hfirst. lia.
Qed.

Lemma setNorth_frame axis g :
  reg (setNorth axis g) = reg g
  ∧ next_item (setNorth axis g) = next_item g
  ∧ calls (setNorth axis g) = calls g
  ∧ on_NorthMapComboBox (setCurrentIndex 0) (ui (setNorth axis g))
    = on_NorthMapComboBox (setCurrentIndex 0) (ui g).
Proof. unfold setNorth. by case_decide. Qed.

(** ** The main window along its inputs *)

Lemma in_reg_done m g g' :
  in_reg m g = Done g' →
  ∃ w', exec m (reg g) = Done w'
        ∧ g' = mkGui w' (ui g) (next_item g) (calls g).
Proof.
  unfold in_reg. destruct (exec m (reg g)) as [w'|]; [|done].
  intros [= <-]. eauto.
Qed.

Lemma initialize_frame c g :
  reg (initialize c g) = reg g
  ∧ next_item (initialize c g) = next_item g
  ∧ calls (initialize c g) = calls g
  ∧ listWidget (ui (initialize c g)) = listWidget (ui g)
  ∧ status (ui (initialize c g)) = offline_label.
Proof.
  unfold initialize.
  repeat match goal with
         | |- context [setNorth ?a ?g] =>
             destruct (setNorth_frame a g) as (-> & -> & -> & Hui);
             apply (f_equal listWidget) in Hui as Hl;
             apply (f_equal status) in Hui as Hs;
             simpl in Hl, Hs; rewrite Hl, Hs
         end.
  done.
Qed.

Section Window.
Variables (toUShort : string → nat) (currentText : QComboBox → string).
Variables (ui0 : Ui) (c0 : StationController).


(** What an input does to the registry: nothing, one debug line, or a
    completed run of one of the two sender slots. *)
Lemma dispatch_reg i g g' :
  dispatch toUShort currentText i g = Done g' →
  reg g' = reg g
  ∨ (∃ line, reg g' = qdebug line (reg g))
  ∨ (∃ o, exec (run o) (reg g) = Done (reg g')).
Proof.
  destruct i; simpl; intros H.
  all: try apply in_reg_done in H as (w' & Hw & ->).
  all: try injection H as <-.
  - by left.
  - by left.
  - by left.
  - right. right. by exists (StartSender (currentItem_text current g)).
  - right. left. eauto.
  - right. left. destruct (removeName_frame name g) as [-> _]. eauto.
  - by left.
  - by left.
  - by left.
  - right. right. by exists (SenderWindowClosed name).
  - left. by destruct resBtn.
Qed.

(** X17.  The invariants of the sender registry hold in every window
    reachable from the constructed one, with all the slots of the file
    interleaved: a name has all three sub-objects or none, the three maps
    have the same keys, and the objects follow the ownership discipline. *)
Theorem window_keeps_registry_invariants g :
  gui_reachable toUShort currentText ui0 c0 g →
  (∀ n, session_complete n (this (reg g)) ∨ session_absent n (this (reg g)))
  ∧ same_keys (this (reg g))
  ∧ heap_ok (reg g).
Proof.
  induction 1 as [|g i g' _ (IH1 & IH2 & IH3) Hstep].
  - unfold construct. destruct (initialize_frame c0
      (mkGui init ui0 (S (max_list (listWidget ui0).*1)) [])) as (-> & _).
    simpl. split; [|split; [by split | apply heap_ok_init]].
    intros n. right. repeat split; apply lookup_empty.
  - apply dispatch_reg in Hstep as [->|[[line ->]|[o Hrun]]].
    + done.
    + split; [done|]. split; [done|]. by apply heap_ok_log.
    + split; [|split; [by eapply run_same_keys|]].
      * apply run_done in Hrun. destruct o as [[name|]|name].
        -- rewrite Hrun. by apply all_or_none_reg3.
        -- by rewrite Hrun.
        -- destruct Hrun as (_ & _ & ->). by apply all_or_none_unreg3.
      * apply run_done in Hrun. destruct o as [[name|]|name].
        -- rewrite Hrun. by apply heap_ok_started.
        -- rewrite Hrun. by apply heap_ok_log.
        -- destruct Hrun as (_ & _ & ->). by apply heap_ok_closed.
Qed.

Lemma gui_reachable_items g :
  NoDup (listWidget ui0).*1 →
  gui_reachable toUShort currentText ui0 c0 g → items_ok g.
Proof.
  intros Hnd. induction 1 as [|g i g' _ IH Hstep].
  - unfold construct, items_ok. destruct (initialize_frame c0
      (mkGui init ui0 (S (max_list (listWidget ui0).*1)) []))
      as (_ & -> & _ & -> & _).
    simpl. split; [done|]. intros id Hid.
    apply max_list_elem_of_le in Hid. lia.
  - destruct i; simpl in Hstep.
    all: try apply in_reg_done in Hstep as (w' & _ & ->).
    all: try injection Hstep as <-.
    5: by apply items_ok_addName.
    5: by apply items_ok_removeName.
    9: by destruct resBtn.
    all: exact IH.
Qed.

Lemma dispatch_hist i g g' :
  dispatch toUShort currentText i g = Done g' → ∃ h, hist (reg g') = hist (reg g) ++ h.
Proof.
  intros [->|[[line ->]|[o Hrun]]]%dispatch_reg.
  - exists []. by rewrite app_nil_r.
  - by eexists.
  - apply run_done in Hrun. destruct o as [[name|]|name].
    + rewrite Hrun. by eexists.
    + rewrite Hrun. by eexists.
    + destruct Hrun as (_ & _ & ->). by eexists.
Qed.

Lemma known_mono n g g' :
  (∃ h, hist (reg g') = hist (reg g) ++ h) → known ui0 n g → known ui0 n g'.
Proof.
  intros [h Hh] [Hn|[sw Hn]]; [by left|].
  right. exists sw. rewrite Hh. apply elem_of_app. by left.
Qed.

Lemma currentItem_text_Some current g name :
  currentItem_text current g = Some name →
  ∃ it, it ∈ listWidget (ui g) ∧ it.2 = name.
Proof.
  unfold currentItem_text. destruct current as [row|]; [|done]. simpl.
  destruct (listWidget (ui g) !! row) as [it|] eqn:E; [|done].
  intros [= <-]. exists it. split; [|done].
  apply list_elem_of_lookup. eauto.
Qed.

(** X18.  In every window reachable from the constructed one, the text of
    each item of the list widget and each key of the three maps is the text
    of an item the form was built with or a name [addName] was called with:
    a session is only ever started for a name that was listed. *)
Theorem session_names_come_from_list g :
  gui_reachable toUShort currentText ui0 c0 g →
  (∀ it, it ∈ listWidget (ui g) → known ui0 it.2 g)
  ∧ (∀ f n, is_Some (get_field f (this (reg g)) !! n) → known ui0 n g).
Proof.
  induction 1 as [|g i g' _ [IH1 IH2] Hstep].
  - unfold construct. destruct (initialize_frame c0
      (mkGui init ui0 (S (max_list (listWidget ui0).*1)) []))
      as (Hreg & _ & _ & Hl & _).
    rewrite Hl, Hreg. simpl. split.
    + intros it Hit. left. apply list_elem_of_fmap. eauto.
    + intros [] n [x Hx]; simpl in Hx; by rewrite lookup_empty in Hx.
  - pose proof (dispatch_hist _ _ _ Hstep) as Hh.
    pose proof (λ n, known_mono n g g' Hh) as Hmono.
    destruct i; simpl in Hstep.
    all: try apply in_reg_done in Hstep as (w' & Hw & ->).
    all: try injection Hstep as <-.
    + split; [intros it Hit; apply Hmono, IH1, Hit
             | intros f n Hn; apply Hmono, (IH2 f), Hn].
    + split; [intros it Hit; apply Hmono, IH1, Hit
             | intros f n Hn; apply Hmono, (IH2 f), Hn].
    + split; [intros it Hit; apply Hmono, IH1, Hit
             | intros f n Hn; apply Hmono, (IH2 f), Hn].
    + split; [intros it Hit; apply Hmono, IH1, Hit|].
      intros f n Hn. simpl in Hn.
      destruct (currentItem_text current g) as [name|] eqn:Ecur.
      * rewrite startSenderHandler_some in Hw. injection Hw as <-.
        simpl in Hn. destruct (decide (n = name)) as [->|Hne].
        -- apply currentItem_text_Some in Ecur as (it & Hit & <-).
           apply Hmono, IH1, Hit.
        -- apply Hmono, (IH2 f).
           destruct f; simpl in *; by rewrite lookup_insert_ne in Hn.
      * rewrite startSenderHandler_none in Hw. injection Hw as <-.
        apply Hmono, (IH2 f). exact Hn.
    + split; [|intros f n Hn; apply Hmono, (IH2 f), Hn].
      intros it [Hit| ->%list_elem_of_singleton]%elem_of_app.
      * apply Hmono, IH1, Hit.
      * right. exists (this (reg g)). simpl.
        apply elem_of_app. right. by left.
    + split; [|intros f n Hn; apply Hmono, (IH2 f);
                destruct (removeName_frame name g) as [Hr _];
                by rewrite Hr in Hn].
      intros it Hit. apply Hmono, IH1.
      unfold removeName in Hit. rewrite foldl_delete_item_gui in Hit.
      simpl in Hit. rewrite foldl_delete_item in Hit.
      by apply list_elem_of_filter in Hit as [_ ?].
    + split; [intros it Hit; apply Hmono, IH1, Hit
             | intros f n Hn; apply Hmono, (IH2 f), Hn].
    + split; [intros it Hit; apply Hmono, IH1, Hit
             | intros f n Hn; apply Hmono, (IH2 f), Hn].
    + split; [intros it Hit; apply Hmono, IH1, Hit
             | intros f n Hn; apply Hmono, (IH2 f), Hn].
    + split; [intros it Hit; apply Hmono, IH1, Hit|].
      intros f n Hn. simpl in Hn.
      apply senderWindowCloseHandler_inv in Hw as (_ & _ & ->).
      apply Hmono, (IH2 f). simpl in Hn.
      destruct (decide (n = name)) as [->|Hne].
      * destruct f; simpl in Hn; rewrite lookup_delete_eq in Hn;
          by destruct Hn.
      * destruct f; simpl in *; by rewrite lookup_delete_ne in Hn.
    + split; [intros it Hit; apply Hmono, IH1; by destruct resBtn
             | intros f n Hn; apply Hmono, (IH2 f); by destruct resBtn].
Qed.

Lemma connect_after_settings_app l b :
  CconnectVicon ∉ b →
  connect_after_settings l → connect_after_settings (l ++ b).
Proof.
  intros Hb Hl i Hi.
  destruct (decide (i < length l)) as [Hlt|Hge].
  - rewrite lookup_app_l in Hi by done.
    destruct (Hl i Hi) as (H4 & a & p & gps & n & Ha & Hp & Hg & Hn).
    split; [done|]. exists a, p, gps, n.
    rewrite !lookup_app_l by lia. done.
  - rewrite lookup_app_r in Hi by lia.
    destruct Hb. apply list_elem_of_lookup. eauto.
Qed.

Lemma connect_after_settings_launch l a p gps n :
  connect_after_settings l →
  connect_after_settings
    (((((l ++ [CsetHostAddress a]) ++ [CsetHostPort p]) ++ [CsetOriginGPS gps])
        ++ [CsetNorth n]) ++ [CconnectVicon]).
Proof.
  intros Hl i Hi. rewrite <- !app_assoc in *. simpl in *.
  destruct (decide (i < length l)) as [Hlt|Hge].
  - rewrite lookup_app_l in Hi by done.
    destruct (Hl i Hi) as (H4 & a' & p' & gps' & n' & Ha & Hp & Hg & Hn).
    split; [done|]. exists a', p', gps', n'.
    rewrite !lookup_app_l by lia. done.
  - rewrite lookup_app_r in Hi by lia.
    destruct (i - length l) as [|[|[|[|[|k]]]]] eqn:Ek; try done.
    split; [lia|]. exists a, p, gps, n.
    rewrite !lookup_app_r by lia.
    replace (i - 4 - length l) with 0 by lia.
    replace (i - 3 - length l) with 1 by lia.
    replace (i - 2 - length l) with 2 by lia.
    replace (i - 1 - length l) with 3 by lia. done.
Qed.

(** X15.  In every window reachable from the constructed one, each
    [connectVicon] call comes right after the four settings were pushed:
    the controller is never asked to connect on settings it was not given at
    that moment. *)
Theorem connect_only_after_settings g :
  gui_reachable toUShort currentText ui0 c0 g → connect_after_settings (calls g).
Proof.
  assert (∀ c : call, c ≠ CconnectVicon → CconnectVicon ∉ [c]) as Hone.
  { intros c Hc Heq%list_elem_of_singleton. congruence. }
  induction 1 as [|g i g' _ IH Hstep].
  - unfold construct. destruct (initialize_frame c0
      (mkGui init ui0 (S (max_list (listWidget ui0).*1)) []))
      as (_ & _ & -> & _).
    intros i Hi. done.
  - destruct i; simpl in Hstep.
    all: try apply in_reg_done in Hstep as (w' & _ & ->).
    all: try injection Hstep as <-.
    all: try exact IH.
    + exact (connect_after_settings_launch _ _ _ _ _ IH).
    + simpl. by apply connect_after_settings_app; [apply Hone|].
    + simpl. by apply connect_after_settings_app; [apply Hone|].
    + by destruct (removeName_frame name g) as (_ & _ & -> & _).
    + destruct resBtn; simpl.
      * apply connect_after_settings_app; [by apply Hone|].
        apply connect_after_settings_app; [by apply Hone|]. done.
      * apply connect_after_settings_app; [by apply Hone|].
        apply connect_after_settings_app; [by apply Hone|]. done.
      * apply connect_after_settings_app; [by apply Hone|].
        apply connect_after_settings_app; [by apply Hone|].
        apply connect_after_settings_app; [by apply Hone|]. done.
Qed.

(** X16.  In every window reachable from the constructed one, the status
    label is one of the two the file writes: "OFF LINE" in red, or
    "ON LINE (rate Hz)" in dark green, both on blue.  Text and colour never
    disagree. *)
Theorem status_text_matches_colour g :
  gui_reachable toUShort currentText ui0 c0 g →
  status (ui g) = offline_label
  ∨ ∃ c, status (ui g) = online_label (getFrameRate_number c).
Proof.
  induction 1 as [|g i g' _ IH Hstep].
  - left. apply initialize_frame.
  - destruct i; simpl in Hstep.
    all: try apply in_reg_done in Hstep as (w' & _ & ->).
    all: try injection Hstep as <-.
    6: { destruct (removeName_frame name g) as (_ & _ & _ & Hui).
         apply (f_equal status) in Hui. simpl in Hui. by rewrite Hui. }
    6: { right. by exists c. }
    6: by left.
    8: by destruct resBtn.
    all: exact IH.
Qed.
End Window.

(** ** Further properties of the two sender slots *)

(** X1.  A run of [startSenderHandler] on a selected item leaves the slots
    of every other name, in all three maps, as they were, and deletes only
    objects that were registered under the selected name. *)
Theorem start_leaves_other_sessions w name :
  ∃ w' h,
    exec (startSenderHandler (Some name)) w = Done w'
    ∧ hist w' = hist w ++ h
    ∧ (∀ f n, n ≠ name → get_field f (this w') !! n = get_field f (this w) !! n)
    ∧ (∀ o, o ∈ deleted_ids h → ∃ f, held (this w) f name o).
Proof.
  exists (started name w), (start_hist name (next_oid w) (this w)).
  split; [apply startSenderHandler_some|]. split; [reflexivity|]. split.
  - intros [] n Hn; simpl; by rewrite lookup_insert_ne.
  - intros o. rewrite start_hist_deleted_ids. apply elem_of_slot_ids.
Qed.

(** X2.  A completed run of [senderWindowCloseHandler] leaves the slots of
    every other name as they were and deletes only objects that were
    registered under the closed name. *)
Theorem close_leaves_other_sessions w name w' :
  exec (senderWindowCloseHandler name) w = Done w' →
  ∃ h,
    hist w' = hist w ++ h
    ∧ (∀ f n, n ≠ name → get_field f (this w') !! n = get_field f (this w) !! n)
    ∧ (∀ o, o ∈ deleted_ids h → ∃ f, held (this w) f name o).
Proof.
  intros (_ & _ & ->)%senderWindowCloseHandler_inv.
  exists (close_hist name (this w)). split; [reflexivity|]. split.
  - intros [] n Hn; simpl; by rewrite lookup_delete_ne.
  - intros o. rewrite close_hist_deleted_ids, <- elem_of_slot_ids.
    rewrite !elem_of_app. tauto.
Qed.

Lemma close_leaves_other_sessions_witness :
  exec (senderWindowCloseHandler "drone1") drone12_world
  = Done (closed "drone1" drone12_world)
  ∧ senders (this drone12_world) !! "drone2" = Some (Some 3)
  ∧ senders (this (closed "drone1" drone12_world)) !! "drone2" = Some (Some 3)
  ∧ senderWindows (this (closed "drone1" drone12_world)) !! "drone2"
    = Some (Some 5).
Proof.
  assert (exec (senderWindowCloseHandler "drone1") drone12_world
          = Done (closed "drone1" drone12_world)) as Hrun
    by (vm_compute; reflexivity).
  split; [exact Hrun|]. split; [reflexivity|].
  destruct (close_leaves_other_sessions _ _ _ Hrun) as (h & _ & Hother & _).
  split.
  - etrans; [apply (Hother Fsenders "drone2"); discriminate | reflexivity].
  - etrans; [apply (Hother FsenderWindows "drone2"); discriminate
            | reflexivity].
Defined.

(** X3.  Starting a session for a name that is a key of none of the maps
    and closing it again gives back the three maps exactly as they were; the
    three objects constructed on the way are all deleted, window first. *)
Theorem start_close_round_trip w name :
  session_absent name (this w) →
  ∃ w',
    run_all [StartSender (Some name); SenderWindowClosed name] w = Done w'
    ∧ this w' = this w
    ∧ next_oid w' = next_oid w + 3
    ∧ new_ids (hist w') = new_ids (hist w)
                          ++ [next_oid w; next_oid w + 1; next_oid w + 2]
    ∧ deleted_ids (hist w')
      = deleted_ids (hist w)
        ++ [next_oid w + 2; next_oid w + 1; next_oid w].
Proof.
  intros (Hs & Hc & Hw). exists (closed name (started name w)).
  split; [apply start_then_close|].
  split; [|split; [reflexivity|]].
  - destruct w as [[ms mc mw] o h]; simpl in *.
    unfold unreg3, unreg2, unreg1, reg3, reg2, reg1; simpl.
    by rewrite !delete_insert_id.
  - cbn [hist closed started]. unfold new_ids, deleted_ids.
    rewrite !omap_app.
    fold (new_ids (hist w)) (deleted_ids (hist w)).
    fold (new_ids (start_hist name (next_oid w) (this w))).
    fold (deleted_ids (start_hist name (next_oid w) (this w))).
    fold (new_ids (close_hist name (this (started name w)))).
    fold (deleted_ids (close_hist name (this (started name w)))).
    rewrite start_hist_new_ids, close_hist_new_ids.
    rewrite start_hist_deleted_ids, close_hist_deleted_ids.
    rewrite Hs, Hc, Hw. simpl. rewrite !lookup_insert_eq. simpl.
    by rewrite !app_nil_r.
Qed.

Lemma start_close_round_trip_witness :
  session_absent "drone1" (this init)
  ∧ ∃ w', run_all [StartSender (Some "drone1");
                   SenderWindowClosed "drone1"] init = Done w'
          ∧ this w' = this init.
Proof.
  assert (session_absent "drone1" (this init)) as H by (by repeat split).
  split; [exact H|].
  destruct (start_close_round_trip init "drone1" H) as (w' & Hrun & Hthis & _).
  exists w'. split; [exact Hrun | exact Hthis].
Defined.

(** X4.  A run of [senderWindowCloseHandler] completes exactly when the name
    is a key of [senderControllers] and of [senders]; whether it is a key of
    [senderWindows], the only map the slot tests, makes no difference. *)
Theorem close_defined_iff w name :
  (∃ w', exec (senderWindowCloseHandler name) w = Done w')
  ↔ is_Some (senderControllers (this w) !! name)
    ∧ is_Some (senders (this w) !! name).
Proof.
  split.
  - intros [w' (Hc & Hs & _)%senderWindowCloseHandler_inv]. done.
  - intros [[pc Hc] [ps Hs]]. exists (closed name w).
    by apply (senderWindowCloseHandler_done name w pc ps).
Qed.

(** X5.  In a reachable registry, [senderWindowCloseHandler] completes
    exactly for the names of the registered sessions. *)
Theorem close_defined_iff_registered w name :
  reachable w →
  (∃ w', exec (senderWindowCloseHandler name) w = Done w')
  ↔ session_complete name (this w).
Proof.
  intros Hw. rewrite close_defined_iff.
  destruct (proj1 (reachable_invariant w Hw) name)
    as [(Hs & Hc & Hv)|(Hs & Hc & Hv)].
  - split; [done|]. intros _. split; by apply holds_is_Some.
  - rewrite Hc. split.
    + intros [[? ?] _]. done.
    + intros (Hs' & _). unfold holds in Hs'. by rewrite Hs in Hs'.
Qed.

Lemma close_defined_iff_registered_witness :
  reachable drone1_world
  ∧ ∃ w', exec (senderWindowCloseHandler "drone1") drone1_world = Done w'.
Proof.
  assert (reachable drone1_world) as H.
  { apply (reach_step init (StartSender (Some "drone1")));
      [apply reach_init | vm_compute; reflexivity]. }
  split; [exact H|].
  apply (proj2 (close_defined_iff_registered drone1_world "drone1" H)).
  vm_compute. tauto.
Defined.

(** X6.  In a reachable registry no object is owned twice: two slots that
    hold the same address are the same slot of the same map, and every
    address held was returned by a [new] of an earlier run. *)
Theorem unique_ownership w :
  reachable w →
  (∀ f n f' n' o,
      held (this w) f n o → held (this w) f' n' o → f = f' ∧ n = n')
  ∧ (∀ f n o, held (this w) f n o → o ∈ new_ids (hist w)).
Proof.
  intros [H1 H2 H3 H4 H5 H6 H7]%reachable_heap_ok. split; [exact H3|].
  intros f n o Ho%H1. rewrite H7. apply elem_of_seq. lia.
Qed.

Lemma unique_ownership_witness :
  reachable drone1_world
  ∧ (held (this drone1_world) Fsenders "drone1" 0 →
     0 ∈ new_ids (hist drone1_world)).
Proof.
  assert (reachable drone1_world) as H.
  { apply (reach_step init (StartSender (Some "drone1")));
      [apply reach_init | vm_compute; reflexivity]. }
  split; [exact H|].
  apply (proj2 (unique_ownership drone1_world H) Fsenders "drone1" 0).
Defined.

(** X7.  In a reachable registry the objects are constructed at the
    addresses 0, 1, 2, ... once each, none is deleted twice, and each of them
    is either held by a slot and not deleted, or deleted and held by no slot:
    nothing leaks and nothing deleted stays registered. *)
Theorem no_leak_no_double_delete w :
  reachable w →
  new_ids (hist w) = seq 0 (next_oid w)
  ∧ NoDup (deleted_ids (hist w))
  ∧ (∀ o, o ∈ deleted_ids (hist w) → o ∈ new_ids (hist w))
  ∧ ∀ o, o ∈ new_ids (hist w) →
         ((∃ f n, held (this w) f n o) ∧ o ∉ deleted_ids (hist w))
         ∨ (o ∈ deleted_ids (hist w) ∧ ¬ ∃ f n, held (this w) f n o).
Proof.
  intros [H1 H2 H3 H4 H5 H6 H7]%reachable_heap_ok.
  split; [done|]. split; [done|]. rewrite H7. split.
  - intros o Ho%H5. apply elem_of_seq. lia.
  - intros o Ho%elem_of_seq.
    destruct (H6 o) as [(f & n & Hh)|Hd]; [lia| |].
    + left. split; [eauto|]. by apply (H2 f n).
    + right. split; [done|]. intros (f & n & Hh). by apply (H2 f n o).
Qed.

Lemma no_leak_no_double_delete_witness :
  reachable drone1_world
  ∧ new_ids (hist drone1_world) = seq 0 (next_oid drone1_world).
Proof.
  assert (reachable drone1_world) as H.
  { apply (reach_step init (StartSender (Some "drone1")));
      [apply reach_init | vm_compute; reflexivity]. }
  split; [exact H|].
  apply (proj1 (no_leak_no_double_delete drone1_world H)).
Defined.

(** X8.  In a reachable registry, a run of [startSenderHandler] on a
    selected item logs "Station now has N sender windows." with N the number
    of sessions after the run: the number before when the name was already
    registered, one more when it was not.  All three maps have N keys. *)
Theorem start_reports_session_count w name :
  reachable w →
  ∃ w' h N,
    exec (startSenderHandler (Some name)) w = Done w'
    ∧ hist w' = hist w ++ h
    ∧ QDebug [DStr "Station now has "; DSize N; DStr " sender windows."]
      ∈ events h
    ∧ N = (if decide (session_complete name (this w))
           then size (senders (this w)) else S (size (senders (this w))))
    ∧ size (senders (this w')) = N
    ∧ size (senderControllers (this w')) = N
    ∧ size (senderWindows (this w')) = N.
Proof.
  intros Hw.
  exists (started name w), (start_hist name (next_oid w) (this w)).
  exists (size (senders (this (started name w)))).
  split; [apply startSenderHandler_some|]. split; [reflexivity|]. split.
  { unfold events, start_hist. rewrite !fmap_app, !elem_of_app.
    do 6 right. simpl. do 2 right. left. }
  pose proof (reachable_same_keys _ (reach_step w (StartSender (Some name)) _
                Hw (startSenderHandler_some name w))) as [Hk1 Hk2].
  assert (size (senders (this (started name w)))
          = if decide (session_complete name (this w))
            then size (senders (this w)) else S (size (senders (this w)))) as E.
  { simpl. rewrite map_size_insert.
    destruct (proj1 (reachable_invariant w Hw) name)
      as [(Hs & Hc & Hv)|(Hs & Hc & Hv)].
    - rewrite decide_True by done. apply holds_is_Some in Hs as [x ->]. done.
    - rewrite Hs. rewrite decide_False; [done|].
      intros (Hs' & _). unfold holds in Hs'. by rewrite Hs in Hs'. }
  split; [exact E|]. split; [reflexivity|].
  rewrite <- !size_dom. by rewrite <- Hk2, <- Hk1.
Qed.

Lemma start_reports_session_count_witness :
  reachable drone1_world
  ∧ ∃ w', exec (startSenderHandler (Some "drone2")) drone1_world = Done w'
          ∧ size (senders (this w')) = 2.
Proof.
  assert (reachable drone1_world) as H.
  { apply (reach_step init (StartSender (Some "drone1")));
      [apply reach_init | vm_compute; reflexivity]. }
  split; [exact H|].
  destruct (start_reports_session_count drone1_world "drone2" H)
    as (w' & h & N & Hrun & _ & _ & HN & Hs & _).
  exists w'. split; [exact Hrun|]. rewrite Hs, HN. vm_compute. reflexivity.
Defined.

(** ** Properties of the other slots *)

(** X9.  With items of distinct identities, [removeName] leaves in the list
    widget exactly the items whose text differs from the name, in their
    order; it adds one debug line and changes nothing else of the window. *)
Theorem removeName_removes_by_text name g :
  NoDup (listWidget (ui g)).*1 →
  listWidget (ui (removeName name g))
  = filter (λ it, it.2 ≠ name) (listWidget (ui g))
  ∧ reg (removeName name g)
    = qdebug [DStr "removing drone from UI"; DName name] (reg g)
  ∧ this (reg (removeName name g)) = this (reg g)
  ∧ calls (removeName name g) = calls g
  ∧ on_listWidget (λ _, []) (ui (removeName name g))
    = on_listWidget (λ _, []) (ui g).
Proof.
  intros Hnd. split; [by apply removeName_listWidget|].
  destruct (removeName_frame name g) as (Hr & _ & Hc & Hu).
  rewrite Hr. done.
Qed.

Lemma removeName_removes_by_text_witness :
  NoDup (listWidget (ui (addName "b" (addName "a" example_window)))).*1
  ∧ listWidget (ui (removeName "a" (addName "b" (addName "a" example_window))))
    = [(2, "b")].
Proof.
  assert (NoDup (listWidget
            (ui (addName "b" (addName "a" example_window)))).*1) as H.
  { vm_compute. repeat constructor; set_solver. }
  split; [exact H|].
  rewrite (proj1 (removeName_removes_by_text "a" _ H)).
  vm_compute. reflexivity.
Defined.

(** X10.  After [removeName] no item with that text is left, however often
    the name was added; and when no item has that text, the list widget is
    left as it was. *)
Theorem removeName_clears_name name g :
  NoDup (listWidget (ui g)).*1 →
  name ∉ (listWidget (ui (removeName name g))).*2
  ∧ (name ∉ (listWidget (ui g)).*2 →
     listWidget (ui (removeName name g)) = listWidget (ui g)).
Proof.
  intros Hnd. rewrite removeName_listWidget by done. split.
  - intros (it & -> & [Hne _]%list_elem_of_filter)%list_elem_of_fmap. done.
  - intros Hn. induction (listWidget (ui g)) as [|it l IH]; [done|].
    rewrite fmap_cons, not_elem_of_cons in Hn. destruct Hn as [Hne Hn].
    rewrite filter_cons_True by done. f_equal. apply IH; [|done].
    rewrite fmap_cons in Hnd. by apply NoDup_cons in Hnd as [_ ?].
Qed.

Lemma removeName_clears_name_witness :
  NoDup (listWidget (ui (addName "a" (addName "a" example_window)))).*1
  ∧ "a" ∉ (listWidget
             (ui (removeName "a" (addName "a" (addName "a" example_window))))).*2.
Proof.
  assert (NoDup (listWidget
            (ui (addName "a" (addName "a" example_window)))).*1) as H.
  { vm_compute. repeat constructor; set_solver. }
  split; [exact H|].
  apply (proj1 (removeName_clears_name "a" _ H)).
Defined.

(** X11.  [addName] does not look for the name in the list: the number of
    items with that text grows by one at each call.  Adding a name that was
    not listed and removing it again gives back the list widget as it was. *)
Theorem addName_removeName_round_trip name g :
  items_ok g →
  length (findItems name (listWidget (ui (addName name g))))
  = S (length (findItems name (listWidget (ui g))))
  ∧ (name ∉ (listWidget (ui g)).*2 →
     listWidget (ui (removeName name (addName name g))) = listWidget (ui g)).
Proof.
  intros Hok. split.
  - unfold findItems; simpl. rewrite filter_app, fmap_app, length_app.
    rewrite filter_cons_True by done. simpl. lia.
  - intros Hn. destruct (items_ok_addName name g Hok) as [Hnd _].
    rewrite removeName_listWidget by done. simpl.
    rewrite filter_app, filter_cons_False by (simpl; tauto).
    rewrite filter_nil, app_nil_r.
    clear -Hn. induction (listWidget (ui g)) as [|it l IH]; [done|].
    rewrite fmap_cons, not_elem_of_cons in Hn. destruct Hn as [Hne Hn].
    rewrite filter_cons_True by done. f_equal. by apply IH.
Qed.

Lemma addName_removeName_round_trip_witness :
  items_ok example_window
  ∧ listWidget (ui (removeName "a" (addName "a" example_window)))
    = listWidget (ui example_window).
Proof.
  assert (items_ok example_window) as H.
  { split; [vm_compute; constructor|]. intros id Hid. vm_compute in Hid.
    by apply elem_of_nil in Hid. }
  split; [exact H|].
  apply (proj2 (addName_removeName_round_trip "a" _ H)).
  vm_compute. apply not_elem_of_nil.
Defined.

(** X12.  [setNorth] makes current the first item of the combo box whose
    text is the axis; when no item has that text it changes nothing.  The
    items themselves are never changed. *)
Theorem setNorth_selects_first_match axis g :
  combo_items (NorthMapComboBox (ui (setNorth axis g)))
  = combo_items (NorthMapComboBox (ui g))
  ∧ (axis ∈ combo_items (NorthMapComboBox (ui g)) →
     ∃ k : nat,
       currentIndex (NorthMapComboBox (ui (setNorth axis g))) = Z.of_nat k
       ∧ combo_items (NorthMapComboBox (ui g)) !! k = Some axis
       ∧ ∀ j, j < k → combo_items (NorthMapComboBox (ui g)) !! j ≠ Some axis)
  ∧ (axis ∉ combo_items (NorthMapComboBox (ui g)) → setNorth axis g = g).
Proof.
  unfold setNorth, findText. split; [by case_decide|]. split.
  - intros (k & Hk & Hat & Hfirst)%(findText_from_Some 0).
    rewrite Hk. rewrite decide_True by lia. exists k. simpl.
    split; [lia|]. done.
  - intros Hn%(findText_from_None 0). rewrite Hn. case_decide; congruence.
Qed.

(** X13.  The constructed window: empty maps and no call made; the status
    label reads "OFF LINE" in red on blue; the three line edits show what the
    controller reports, the port in decimal, and keep their enabled flag; the
    list widget is the form's; the combo box keeps its items and has "-x"
    current when it has such an item, the form's current index otherwise. *)
Theorem constructed_window ui0 c :
  let g := construct ui0 c in
  reg g = init
  ∧ calls g = []
  ∧ status (ui g) = offline_label
  ∧ hostAddressLine (ui g)
    = mkLineEdit (getHostAddress_toString c) (line_enabled (hostAddressLine ui0))
  ∧ hostPortLine (ui g)
    = mkLineEdit (pretty (getHostPort c)) (line_enabled (hostPortLine ui0))
  ∧ viconGPSLine (ui g)
    = mkLineEdit (getOriginGPS c) (line_enabled (viconGPSLine ui0))
  ∧ listWidget (ui g) = listWidget ui0
  ∧ combo_items (NorthMapComboBox (ui g)) = combo_items (NorthMapComboBox ui0)
  ∧ (if decide ("-x" ∈ combo_items (NorthMapComboBox ui0))
     then ∃ k : nat,
         currentIndex (NorthMapComboBox (ui g)) = Z.of_nat k
         ∧ combo_items (NorthMapComboBox ui0) !! k = Some "-x"
     else currentIndex (NorthMapComboBox (ui g))
          = currentIndex (NorthMapComboBox ui0)).
Proof.
  intros g. unfold g, construct, initialize.
  match goal with |- context [setNorth ?a ?g0] => set (g1 := g0) end.
  destruct (setNorth_frame "-x" g1) as (-> & _ & -> & Hui).
  destruct (setNorth_selects_first_match "-x" g1) as (Hitems & Hin & Hnot).
  split; [done|]. split; [done|].
  split; [by apply (f_equal status) in Hui|].
  split; [by apply (f_equal hostAddressLine) in Hui|].
  split; [by apply (f_equal hostPortLine) in Hui|].
  split; [by apply (f_equal viconGPSLine) in Hui|].
  split; [by apply (f_equal listWidget) in Hui|].
  split; [exact Hitems|].
  case_decide as Hx.
  - destruct (Hin Hx) as (k & Hk & Hat & _). eauto.
  - by rewrite (Hnot Hx).
Qed.

(** X14.  [launchViconStream] disables the four inputs and pushes their
    contents to the controller, then connects; [stopViconStream] disconnects
    and enables the four inputs.  One after the other they leave the texts,
    the combo box items and index, the labels, the list widget and the
    registry as they were, with the four inputs enabled. *)
Theorem launch_then_stop toUShort currentText g :
  let g' := stopViconStream (launchViconStream toUShort currentText g) in
  calls g'
  = calls g ++ [CsetHostAddress (line_text (hostAddressLine (ui g)));
                CsetHostPort (toUShort (line_text (hostPortLine (ui g))));
                CsetOriginGPS (line_text (viconGPSLine (ui g)));
                CsetNorth (currentText
                             (combo_setEnabled false (NorthMapComboBox (ui g))));
                CconnectVicon; CdisconnectVicon]
  ∧ reg g' = reg g
  ∧ next_item g' = next_item g
  ∧ ui g'
    = on_hostAddressLine (line_setEnabled true)
        (on_hostPortLine (line_setEnabled true)
           (on_viconGPSLine (line_setEnabled true)
              (on_NorthMapComboBox (combo_setEnabled true) (ui g))))
  ∧ (line_enabled (hostAddressLine (ui g)) = true →
     line_enabled (hostPortLine (ui g)) = true →
     line_enabled (viconGPSLine (ui g)) = true →
     combo_enabled (NorthMapComboBox (ui g)) = true →
     ui g' = ui g).
Proof.
  intros g'. unfold g', stopViconStream, launchViconStream, do_call; simpl.
  rewrite <- !app_assoc. simpl. do 4 (split; [done|]).
  intros Ha Hp Hg Hn.
  destruct g as [w [[ta ea] [tp ep] [tg eg] [its idx en] st dt lw] ni cs].
  simpl in *. by subst.
Qed.

Lemma connect_only_after_settings_witness :
  let g := launchViconStream (λ _, 801) (λ _, "-x") example_window in
  gui_reachable (λ _, 801) (λ _, "-x") example_form example_controller g
  ∧ calls g !! 4 = Some CconnectVicon
  ∧ ∃ address, calls g !! 0 = Some (CsetHostAddress address).
Proof.
  intros g.
  assert (gui_reachable (λ _, 801) (λ _, "-x")
            example_form example_controller g) as H.
  { apply (greach_step _ _ _ _ example_window actionConnect_Vicon_triggered);
      [apply greach_construct | reflexivity]. }
  split; [exact H|].
  assert (calls g !! 4 = Some CconnectVicon) as H4 by reflexivity.
  split; [exact H4|].
  destruct (connect_only_after_settings _ _ _ _ _ H 4 H4)
    as (_ & a & p & gps & n & Ha & _).
  exists a. exact Ha.
Defined.

Lemma status_text_matches_colour_witness :
  let g := setOnline example_controller example_window in
  gui_reachable (λ _, 801) (λ _, "-x") example_form example_controller g
  ∧ (status (ui g) = offline_label
     ∨ ∃ c, status (ui g) = online_label (getFrameRate_number c)).
Proof.
  intros g.
  assert (gui_reachable (λ _, 801) (λ _, "-x")
            example_form example_controller g) as H.
  { apply (greach_step _ _ _ _ example_window
             (viconConnected example_controller));
      [apply greach_construct | reflexivity]. }
  split; [exact H|].
  apply (status_text_matches_colour _ _ _ _ _ H).
Defined.

Lemma window_keeps_registry_invariants_witness :
  gui_reachable (λ _, 801) (λ _, "-x") example_form example_controller
                example_session_window
  ∧ senders (this (reg example_session_window)) !! "drone1" = Some (Some 0)
  ∧ session_complete "drone1" (this (reg example_session_window))
  ∧ same_keys (this (reg example_session_window))
  ∧ heap_ok (reg example_session_window).
Proof.
  assert (gui_reachable (λ _, 801) (λ _, "-x")
            example_form example_controller example_session_window) as H.
  { apply (greach_step _ _ _ _ (addName "drone1" example_window)
             (startMavLinkSenderButton_released (Some 0)));
      [|vm_compute; reflexivity].
    apply (greach_step _ _ _ _ example_window (droneNameAdded "drone1"));
      [apply greach_construct | reflexivity]. }
  split; [exact H|]. split; [reflexivity|].
  destruct (window_keeps_registry_invariants _ _ _ _ _ H) as (Hall & Hk & Hh).
  split; [|split; [exact Hk | exact Hh]].
  destruct (Hall "drone1") as [Hc|(Hs & _)]; [exact Hc | discriminate Hs].
Defined.

Lemma session_names_come_from_list_witness :
  gui_reachable (λ _, 801) (λ _, "-x") example_form example_controller
                example_session_window
  ∧ senderWindows (this (reg example_session_window)) !! "drone1"
    = Some (Some 2)
  ∧ known example_form "drone1" example_session_window.
Proof.
  assert (gui_reachable (λ _, 801) (λ _, "-x")
            example_form example_controller example_session_window) as H.
  { apply (greach_step _ _ _ _ (addName "drone1" example_window)
             (startMavLinkSenderButton_released (Some 0)));
      [|vm_compute; reflexivity].
    apply (greach_step _ _ _ _ example_window (droneNameAdded "drone1"));
      [apply greach_construct | reflexivity]. }
  split; [exact H|]. split; [reflexivity|].
  apply (proj2 (session_names_come_from_list _ _ _ _ _ H)
           FsenderWindows "drone1").
  exists (Some 2). reflexivity.
Defined.

(** X19.  When the form is built with items of distinct identities, the
    items of the list widget have distinct identities in every reachable
    window, so there [removeName] removes exactly the items whose text is the
    name and no others. *)
Theorem reachable_removeName toUShort currentText ui0 c0 g name :
  NoDup (listWidget ui0).*1 →
  gui_reachable toUShort currentText ui0 c0 g →
  NoDup (listWidget (ui g)).*1
  ∧ listWidget (ui (removeName name g))
    = filter (λ it, it.2 ≠ name) (listWidget (ui g)).
Proof.
  intros Hnd Hg. destruct (gui_reachable_items _ _ _ _ g Hnd Hg) as [Hg' _].
  split; [exact Hg'|]. by apply removeName_listWidget.
Qed.

Lemma reachable_removeName_witness :
  let g := addName "drone1" example_window in
  NoDup (listWidget example_form).*1
  ∧ gui_reachable (λ _, 801) (λ _, "-x") example_form example_controller g
  ∧ listWidget (ui (removeName "drone1" g)) = [].
Proof.
  intros g.
  assert (NoDup (listWidget example_form).*1) as Hnd by constructor.
  assert (gui_reachable (λ _, 801) (λ _, "-x")
            example_form example_controller g) as H.
  { apply (greach_step _ _ _ _ example_window (droneNameAdded "drone1"));
      [apply greach_construct | reflexivity]. }
  split; [exact Hnd|]. split; [exact H|].
  rewrite (proj2 (reachable_removeName _ _ _ _ _ "drone1" Hnd H)).
  vm_compute. reflexivity.
Defined.
